(** * Whisper fine-tuning driver: [training/training.py]

    A shallow embedding of the original logic of the training script: the
    argument parser, the encoder-layer freezing loop, the hyperparameter
    lookup [get_training_args], the checkpoint scan [get_latest_checkpoint]
    and the part of the top-level script that wires them together, up to
    the call of [trainer.train].

    Python values are modelled as follows.
    - [str] is [string]; a character is a code point below 256.
    - [int] is [Z].
    - An exception is a constructor of [Py.exn]; a computation that may
      raise returns a [Py.result].
    - [None] as a possible value is [option].
    - The float literals of the learning rates are kept as exact rationals.
    - Mutable state (standard output, the calls into the external framework
      and the [requires_grad] flag of every model parameter) is threaded
      through a small state-and-exception monad.
    - The external framework is an environment, [World]: which datasets and
      models can be loaded and what the directories hold.  Calls whose
      outcome the script does not look at are recorded and taken to
      return. *)

From Stdlib Require Import ZArith List String Ascii Bool Lia QArith.
From Stdlib Require Import DecimalString DecimalPos Permutation.
Import ListNotations.

Open Scope string_scope.
Open Scope list_scope.
Open Scope Z_scope.

Infix "+++" := String.append (right associativity, at level 60).

(* ================================================================= *)
(** ** Python builtins used by the script *)

Module Py.

Inductive exn : Type :=
| SystemExit          (* argparse rejects the command line *)
| KeyError
| FileNotFoundError
| OSError
| IndexError
| ValueError
| AttributeError.

Inductive result (A : Type) : Type :=
| Ok (a : A)
| Raise (e : exn).
Arguments Ok {A} a.
Arguments Raise {A} e.

Definition bind {A B} (r : result A) (k : A -> result B) : result B :=
  match r with
  | Ok a => k a
  | Raise e => Raise e
  end.

(** [str(n)], which is also what an f-string does with an [int]. *)
Definition str (n : Z) : string := NilZero.string_of_int (Z.to_int n).

(** [s.startswith(p)] *)
Definition startswith (s p : string) : bool := String.prefix p s.

(** [s.endswith(p)] for a one-character [p]. *)
Fixpoint endswith_char (s : string) (c : ascii) : bool :=
  match s with
  | EmptyString => false
  | String a EmptyString => Ascii.eqb a c
  | String _ r => endswith_char r c
  end.

(** [sub in s] *)
Fixpoint contains (sub s : string) : bool :=
  String.prefix sub s ||
  match s with
  | EmptyString => false
  | String _ r => contains sub r
  end.

(** [s.split(sep)] for a one-character separator: one field more than there
    are separators, never the empty list. *)
Fixpoint split (sep : ascii) (s : string) : list string :=
  match s with
  | EmptyString => [EmptyString]
  | String c r =>
      if Ascii.eqb c sep then EmptyString :: split sep r
      else match split sep r with
           | w :: ws => String c w :: ws
           | [] => [String c EmptyString]
           end
  end.

(** [l[i]]: a negative index counts from the end, an index out of range
    raises [IndexError]. *)
Definition getitem {A} (l : list A) (i : Z) : result A :=
  let n := Z.of_nat (List.length l) in
  let j := if i <? 0 then i + n else i in
  if (0 <=? j) && (j <? n) then
    match nth_error l (Z.to_nat j) with
    | Some a => Ok a
    | None => Raise IndexError
    end
  else Raise IndexError.

(** [d[k]] on a dict written as a literal. *)
Fixpoint dict_get {V} (d : list (string * V)) (k : string) : result V :=
  match d with
  | [] => Raise KeyError
  | (k', v) :: d' => if String.eqb k k' then Ok v else dict_get d' k
  end.

(** *** [int(s)], base 10

    Leading and trailing white space is dropped, then comes an optional
    sign, then decimal digits; single underscores may separate digits.
    White space is the C-locale [isspace] set, and in the Latin-1 range
    U+0085 and U+00A0 as well.  The cap CPython puts on the number of
    digits (4300 by default) is left out: the strings parsed here are parts
    of names of directory entries, which are far shorter. *)

Definition isspace (c : ascii) : bool :=
  let n := N_of_ascii c in
  (((9 <=? n) && (n <=? 13)) || (n =? 32) || (n =? 133) || (n =? 160))%N.

Definition digit_value (c : ascii) : option Z :=
  let n := N_of_ascii c in
  if ((48 <=? n) && (n <=? 57))%N then Some (Z.of_N n - 48) else None.

Fixpoint lstrip (s : string) : string :=
  match s with
  | String c r => if isspace c then lstrip r else s
  | EmptyString => s
  end.

Fixpoint all_space (s : string) : bool :=
  match s with
  | String c r => isspace c && all_space r
  | EmptyString => true
  end.

(** The digit scan: [prev_us] says that the previous character was an
    underscore.  Returns the value read and what is left of the string. *)
Fixpoint scan_digits (prev_us : bool) (acc : Z) (s : string)
  : option (Z * string) :=
  match s with
  | EmptyString => if prev_us then None else Some (acc, s)
  | String c r =>
      match digit_value c with
      | Some d => scan_digits false (10 * acc + d) r
      | None =>
          if Ascii.eqb c "_" then
            if prev_us then None else scan_digits true acc r
          else if prev_us then None else Some (acc, s)
      end
  end.

Definition starts_with_digit (s : string) : bool :=
  match s with
  | String c _ => match digit_value c with Some _ => true | None => false end
  | EmptyString => false
  end.

Definition int (s : string) : result Z :=
  let s1 := lstrip s in
  let '(sign, s2) :=
    match s1 with
    | String c r =>
        if Ascii.eqb c "+" then (1, r)
        else if Ascii.eqb c "-" then (-1, r)
        else (1, s1)
    | EmptyString => (1, s1)
    end in
  if starts_with_digit s2 then
    match scan_digits false 0 s2 with
    | Some (n, rest) => if all_space rest then Ok (sign * n) else Raise ValueError
    | None => Raise ValueError
    end
  else Raise ValueError.

(** *** [l.sort(key=..., reverse=True)]

    Every key is computed first, in list order, so the first key that
    raises aborts the sort.  The sort is stable, also when reversed:
    elements with equal keys keep their order. *)

Fixpoint map_result {A B} (f : A -> result B) (l : list A) : result (list B) :=
  match l with
  | [] => Ok []
  | x :: l' =>
      bind (f x) (fun y => bind (map_result f l') (fun ys => Ok (y :: ys)))
  end.

Fixpoint insert_desc {A} (kx : Z * A) (l : list (Z * A)) : list (Z * A) :=
  match l with
  | [] => [kx]
  | ky :: l' => if fst kx <? fst ky then ky :: insert_desc kx l' else kx :: l
  end.

Definition sort_desc {A} (l : list (Z * A)) : list (Z * A) :=
  fold_right insert_desc [] l.

Definition sort_reverse {A} (key : A -> result Z) (l : list A)
  : result (list A) :=
  bind (map_result (fun x => bind (key x) (fun k => Ok (k, x))) l)
       (fun ks => Ok (map snd (sort_desc ks))).

(** *** [os.path.join(a, b)] (posixpath) *)
Definition path_join (a b : string) : string :=
  if startswith b "/" then b
  else if String.eqb a "" || endswith_char a "/" then a +++ b
  else a +++ "/" +++ b.

(** Truth value of an optional string: [None] and [""] are false. *)
Definition truthy (o : option string) : bool :=
  match o with
  | Some (String _ _) => true
  | _ => false
  end.

End Py.

Import Py.

Notation "x <- c ;; k" := (Py.bind c (fun x => k))
  (at level 61, c at next level, right associativity).

(* ================================================================= *)
(** ** Command line and hyperparameter table *)

(** The parsed command line, [args]. *)
Record Namespace : Type := {
  model_size : string;
  freeze_layers : Z
}.

Definition choices : list string := ["tiny"; "small"; "medium"; "large"].

(** [parser.parse_args()]: the positional [model_size] must be one of
    [choices]; [--freeze_layers] is an [int] and defaults to 0. *)
Definition parse_args (size : string) (freeze : option Z) : result Namespace :=
  if existsb (String.eqb size) choices then
    Ok {| model_size := size;
          freeze_layers := match freeze with Some k => k | None => 0 end |}
  else Raise SystemExit.

Definition model_map : list (string * string) :=
  [ ("tiny", "openai/whisper-tiny");
    ("small", "openai/whisper-small");
    ("medium", "openai/whisper-medium");
    ("large", "openai/whisper-large-v3") ].

(** The keyword arguments given to [Seq2SeqTrainingArguments]. *)
Record Seq2SeqTrainingArguments : Type := {
  output_dir : string;
  per_device_train_batch_size : Z;
  gradient_accumulation_steps : Z;
  learning_rate : Q;
  warmup_steps : Z;
  max_steps : Z;
  gradient_checkpointing : bool;
  fp16 : bool;
  eval_strategy : string;
  per_device_eval_batch_size : Z;
  predict_with_generate : bool;
  generation_max_length : Z;
  save_steps : Z;
  eval_steps : Z;
  logging_steps : Z;
  report_to : list string;
  load_best_model_at_end : bool;
  metric_for_best_model : string;
  greater_is_better : bool;
  push_to_hub : bool;
  save_total_limit : Z
}.

(** [get_training_args(model_size, freeze_layers)].  A size that matches
    none of the three branches falls off the end of the function, which
    returns [None]. *)
Definition get_training_args (model_size : string) (freeze_layers : Z)
  : option Seq2SeqTrainingArguments :=
  let output_dir := "../../trained_models/whisper-" +++ model_size +++ "-vanilla" in
  let output_dir :=
    if String.eqb model_size "large" && (freeze_layers >? 0) then
      "../../trained_models/whisper-large-freezing-" +++ str freeze_layers
    else output_dir in
  if String.eqb model_size "small" then
    Some {| output_dir := output_dir;
            per_device_train_batch_size := 16;
            gradient_accumulation_steps := 1;
            learning_rate := (125 # 10000000)%Q;          (* 1.25e-5 *)
            warmup_steps := 500;
            max_steps := 14000;
            gradient_checkpointing := true;
            fp16 := true;
            eval_strategy := "steps";
            per_device_eval_batch_size := 8;
            predict_with_generate := true;
            generation_max_length := 225;
            save_steps := 1000;
            eval_steps := 1000;
            logging_steps := 25;
            report_to := ["tensorboard"];
            load_best_model_at_end := true;
            metric_for_best_model := "wer";
            greater_is_better := false;
            push_to_hub := false;
            save_total_limit := 5 |}
  else if String.eqb model_size "medium" then
    Some {| output_dir := output_dir;
            per_device_train_batch_size := 8;
            gradient_accumulation_steps := 2;
            learning_rate := (625 # 100000000)%Q;         (* 6.25e-6 *)
            warmup_steps := 500;
            max_steps := 14000;
            gradient_checkpointing := true;
            fp16 := true;
            eval_strategy := "steps";
            per_device_eval_batch_size := 8;
            predict_with_generate := true;
            generation_max_length := 225;
            save_steps := 1000;
            eval_steps := 1000;
            logging_steps := 25;
            report_to := ["tensorboard"];
            load_best_model_at_end := true;
            metric_for_best_model := "wer";
            greater_is_better := false;
            push_to_hub := false;
            save_total_limit := 5 |}
  else if String.eqb model_size "large" then
    Some {| output_dir := output_dir;
            per_device_train_batch_size := 4;
            gradient_accumulation_steps := 4;
            learning_rate := (5 # 1000000)%Q;             (* 5e-6 *)
            warmup_steps := 1000;
            max_steps := 14000;
            gradient_checkpointing := true;
            fp16 := true;
            eval_strategy := "steps";
            per_device_eval_batch_size := 8;
            predict_with_generate := true;
            generation_max_length := 225;
            save_steps := 1000;
            eval_steps := 1000;
            logging_steps := 25;
            report_to := ["tensorboard"];
            load_best_model_at_end := true;
            metric_for_best_model := "wer";
            greater_is_better := false;
            push_to_hub := false;
            save_total_limit := 5 |}
  else None.

(** [training_args.output_dir]: attribute access on [None] raises. *)
Definition get_output_dir (training_args : option Seq2SeqTrainingArguments)
  : result string :=
  match training_args with
  | Some a => Ok (output_dir a)
  | None => Raise AttributeError
  end.

(* ================================================================= *)
(** ** Checkpoint scan *)

(** The key of the sort: [int(x.split("-")[1])]. *)
Definition sort_key (x : string) : result Z :=
  field <- getitem (split "-" x) 1 ;;
  int field.

(** The list the comprehension builds: the entries whose name starts with
    "checkpoint", in the order of the listing. *)
Definition checkpoints (entries : list string) : list string :=
  filter (fun d => startswith d "checkpoint") entries.

Section Locator.

(** The file system as the scan sees it: [listdir d] is [None] when
    [os.path.isdir(d)] is false, and else the entries [os.listdir(d)]
    returns, in the order it returns them. *)
Variable listdir : string -> option (list string).

Definition get_latest_checkpoint (output_dir : string)
  : result (option string) :=
  match listdir output_dir with
  | Some entries =>
      match checkpoints entries with
      | _ :: _ =>
          sorted <- sort_reverse sort_key (checkpoints entries) ;;
          first <- getitem sorted 0 ;;
          Ok (Some (path_join output_dir first))
      | [] => Ok None
      end
  | None => Ok None
  end.

End Locator.

(* ================================================================= *)
(** ** The model, the external framework and the script's state *)

(** A parameter tensor is known by its identity: the same tensor reached
    through two modules is the same [param]. *)
Definition param : Type := nat.

(** What the script uses of a loaded model: [model.model.encoder.layers],
    each layer given by what its [parameters()] yields, and the
    [requires_grad] flag every parameter is loaded with.  Parameters outside
    the encoder layers (decoder, embeddings) are parameters that occur in no
    layer. *)
Record Whisper : Type := {
  encoder_layers : list (list param);
  loaded_requires_grad : param -> bool
}.

(** The environment of one run. *)
Record World : Type := {
  cuda_is_available : bool;
  (** [load_from_disk]: the split names of the dataset saved at a path. *)
  datasets : string -> option (list string);
  (** [from_pretrained]: the model behind an identifier. *)
  hub : string -> option Whisper;
  (** The directories, as [get_latest_checkpoint] reads them. *)
  listdir : string -> option (list string)
}.

(** What a run does to the outside, in order. *)
Inductive event : Type :=
| Print (line : string)
| LoadFromDisk (path : string)
| ModelFromPretrained (model_id : string)
| ModelTo (device : string)
| SetGenerationConfig
| ProcessorFromPretrained (model_id : string)
| MakeDataCollator
| MakeTrainer (output_dir : string)
| ProcessorSavePretrained (output_dir : string)
| EmptyCache
| Train (resume_from_checkpoint : option string).

Record state : Type := {
  trace : list event;
  requires_grad : param -> bool
}.

Definition M (A : Type) : Type := state -> state * result A.

Definition ret {A} (a : A) : M A := fun s => (s, Ok a).

Definition mbind {A B} (m : M A) (k : A -> M B) : M B :=
  fun s =>
    match m s with
    | (s', Ok a) => k a s'
    | (s', Raise e) => (s', Raise e)
    end.

Definition lift {A} (r : result A) : M A := fun s => (s, r).

Definition emit (e : event) : M unit :=
  fun s => ({| trace := trace s ++ [e]; requires_grad := requires_grad s |},
            Ok tt).

Definition print (line : string) : M unit := emit (Print line).

(** [param.requires_grad = b] *)
Definition set_requires_grad (p : param) (b : bool) : M unit :=
  fun s =>
    ({| trace := trace s;
        requires_grad := fun q => if Nat.eqb q p then b else requires_grad s q |},
     Ok tt).

Notation "'do' x <- c ; k" := (mbind c (fun x => k))
  (at level 10, x name, c at level 100, k at level 200).
Notation "c ;; k" := (mbind c (fun _ => k))
  (at level 62, right associativity).

(** [for x in l: body(x)] *)
Fixpoint for_each {A} (l : list A) (body : A -> M unit) : M unit :=
  match l with
  | [] => ret tt
  | x :: l' => body x ;; for_each l' body
  end.

(** [range(n)] *)
Definition range (n : Z) : list Z := map Z.of_nat (seq 0 (Z.to_nat n)).

(* ================================================================= *)
(** ** Layer freezing *)

(** The body of the loop over [layer_idx]: every parameter of
    [layers[layer_idx]] gets [requires_grad = False]. *)
Definition freeze_layer (layers : list (list param)) (layer_idx : Z) : M unit :=
  do layer <- lift (getitem layers layer_idx);
  for_each layer (fun p => set_requires_grad p false).

(** Lines 46 to 52 of the script, on [model.model.encoder.layers]. *)
Definition freeze_encoder (freeze_layers : Z) (layers : list (list param))
  : M unit :=
  if freeze_layers >? 0 then
    print ("Freezing the first " +++ str freeze_layers +++ " encoder layers.") ;;
    for_each (range freeze_layers) (freeze_layer layers)
  else
    print "No encoder layers are frozen.".

(* ================================================================= *)
(** ** The script *)

Section Script.

Variable w : World.

(** [load_from_disk(path)] *)
Definition load_from_disk (path : string) : M (list string) :=
  emit (LoadFromDisk path) ;;
  match datasets w path with
  | Some splits => ret splits
  | None => lift (Raise FileNotFoundError)
  end.

(** [dataset_dict[name]] *)
Definition get_split (dataset_dict : list string) (name : string) : M unit :=
  if existsb (String.eqb name) dataset_dict then ret tt
  else lift (Raise KeyError).

(** [WhisperForConditionalGeneration.from_pretrained(model_id)]: the
    parameters come with the flags they are loaded with. *)
Definition from_pretrained (model_id : string) : M Whisper :=
  emit (ModelFromPretrained model_id) ;;
  match hub w model_id with
  | Some m =>
      fun s => ({| trace := trace s;
                   requires_grad := loaded_requires_grad m |}, Ok m)
  | None => lift (Raise OSError)
  end.

(** Lines 15 to 67: from the command line to the data collator. *)
Definition setup (size : string) (freeze : option Z)
  : M (Namespace * string) :=
  do args <- lift (parse_args size freeze);
  do model_id <- lift (dict_get model_map (model_size args));
  let device := if cuda_is_available w then "cuda:0" else "cpu" in
  print ("Using device: " +++ device) ;;
  let dataset_path := "../../data_processed/dataset_dict_" +++ model_size args in
  do dataset_dict <- load_from_disk dataset_path;
  get_split dataset_dict "train" ;;
  get_split dataset_dict "eval" ;;
  get_split dataset_dict "test" ;;
  print "Data set loaded." ;;
  do model <- from_pretrained model_id;
  emit (ModelTo device) ;;
  freeze_encoder (freeze_layers args) (encoder_layers model) ;;
  emit SetGenerationConfig ;;
  print ("Model " +++ model_id +++ " set up finished.") ;;
  emit (ProcessorFromPretrained model_id) ;;
  emit MakeDataCollator ;;
  print "Data collator finished." ;;
  ret (args, model_id).

(** Lines 150 to 183: from the hyperparameter lookup to the call of
    [trainer.train]. *)
Definition resume_and_train (args : Namespace) (model_id : string) : M unit :=
  let training_args := get_training_args (model_size args) (freeze_layers args) in
  do dir <- lift (get_output_dir training_args);
  do checkpoint <- lift (get_latest_checkpoint (listdir w) dir);
  (if truthy checkpoint then
     print ("Resuming from checkpoint: " +++
            match checkpoint with Some c => c | None => "None" end)
   else
     print "No checkpoint found. Starting fresh training.") ;;
  emit (MakeTrainer dir) ;;
  emit (ProcessorSavePretrained dir) ;;
  emit EmptyCache ;;
  print ("Starting training for " +++ model_id +++ "...") ;;
  emit (Train checkpoint).

(** The script, up to the call of [trainer.train]. *)
Definition main (size : string) (freeze : option Z) : M unit :=
  do am <- setup size freeze;
  resume_and_train (fst am) (snd am).

End Script.

(** The state a run starts in: nothing printed, no model loaded. *)
Definition initial : state :=
  {| trace := []; requires_grad := fun _ => true |}.

(** The argument [trainer.train] was called with, if it was called. *)
Fixpoint train_call (t : list event) : option (option string) :=
  match t with
  | [] => None
  | Train r :: _ => Some r
  | _ :: t' => train_call t'
  end.

(* ================================================================= *)
(** ** A small environment to run the script in *)

(** A model with three encoder layers of two parameters each (0 to 5) and
    decoder and embedding parameters from 6 on; the dataset of every size
    is on disk; the output directory of the small model holds three
    checkpoints. *)
Definition demo_model : Whisper :=
  {| encoder_layers := [[0; 1]; [2; 3]; [4; 5]]%nat;
     loaded_requires_grad := fun _ => true |}.

Definition demo_listing : list string :=
  ["checkpoint-500"; "runs"; "checkpoint-1500"; "checkpoint-200"].

Definition demo_world : World :=
  {| cuda_is_available := false;
     datasets := fun _ => Some ["train"; "eval"; "test"];
     hub := fun _ => Some demo_model;
     listdir := fun d =>
       if String.eqb d "../../trained_models/whisper-small-vanilla"
       then Some demo_listing else None |}.

(* ================================================================= *)
(** ** What the claims speak about *)

(** [p] is a parameter of one of the encoder layers at positions
    [a, a + n). *)
Definition in_layers (layers : list (list param)) (a n : nat) (p : param)
  : Prop :=
  exists i ps, (a <= i < a + n)%nat /\ nth_error layers i = Some ps /\ In p ps.

(** A decimal numeral: one digit or more, nothing else; its value. *)
Fixpoint all_digits (s : string) : bool :=
  match s with
  | EmptyString => true
  | String c r =>
      match digit_value c with Some _ => all_digits r | None => false end
  end.

Definition numeral (s : string) : Prop := s <> "" /\ all_digits s = true.

Fixpoint numeral_value (acc : Z) (s : string) : Z :=
  match s with
  | EmptyString => acc
  | String c r =>
      numeral_value (10 * acc + match digit_value c with
                                | Some d => d
                                | None => 0
                                end) r
  end.

(** [name] follows the naming scheme of the checkpoint writer,
    "checkpoint-" and a decimal numeral, and [step] is the numeral's value. *)
Definition well_formed (name : string) (step : Z) : Prop :=
  exists ds, numeral ds /\ name = "checkpoint-" +++ ds /\
             step = numeral_value 0 ds.

(** No character of [s] is [c]. *)
Fixpoint free_of (c : ascii) (s : string) : bool :=
  match s with
  | EmptyString => true
  | String a r => negb (Ascii.eqb a c) && free_of c r
  end.

(** [p] is a parameter of one of the first [n] encoder layers, as a test. *)
Definition frozen_by (layers : list (list param)) (n : nat) (p : param)
  : bool :=
  existsb (fun ps => existsb (Nat.eqb p) ps) (firstn n layers).

(** The two lines by which the script says what it chose. *)
Definition is_choice_line (e : event) : bool :=
  match e with
  | Print l =>
      String.eqb l "No checkpoint found. Starting fresh training." ||
      startswith l "Resuming from checkpoint: "
  | _ => false
  end.

(** The calls of [load_from_disk]. *)
Definition is_dataset_load (e : event) : bool :=
  match e with
  | LoadFromDisk _ => true
  | _ => false
  end.

(** The calls that are given the output directory to write into. *)
Definition writes_output_dir (e : event) : bool :=
  match e with
  | MakeTrainer _ | ProcessorSavePretrained _ | Train _ => true
  | _ => false
  end.

(** [m] adds no event that [P] picks. *)
Definition silent (P : event -> bool) {A} (m : M A) : Prop :=
  forall s, filter P (trace (fst (m s))) = filter P (trace s).

(** The key of an entry whose key does not raise. *)
Definition key_value (r : result Z) : Z :=
  match r with Ok k => k | Raise _ => 0 end.

(** [m] does not call [trainer.train]. *)
Definition quiet {A} (m : M A) : Prop :=
  forall s, train_call (trace (fst (m s))) = train_call (trace s).

(** Whatever [m] returns satisfies [P]. *)
Definition returns {A} (m : M A) (P : A -> Prop) : Prop :=
  forall s s' a, m s = (s', Ok a) -> P a.

(* ================================================================= *)
(** * Facts *)

(** ** Hyperparameter table *)

Lemma prefix_refl (s : string) : String.prefix s s = true.
Proof.
  induction s as [|c s IH]; simpl; [reflexivity|].
  destruct (ascii_dec c c); [exact IH | congruence].
Qed.

Lemma contains_append (pre sub : string) : contains sub (pre +++ sub) = true.
Proof.
  induction pre as [|c pre IH]; simpl.
  - destruct sub; simpl; [reflexivity|].
    rewrite prefix_refl.
    destruct (ascii_dec a a); [reflexivity | congruence].
  - rewrite IH. apply orb_true_r.
Qed.

(** The three sizes the table has a branch for. *)
Lemma get_training_args_defined (size : string) (k : Z) :
  In size ["small"; "medium"; "large"] ->
  exists a, get_training_args size k = Some a /\
            0 < per_device_train_batch_size a /\
            0 < gradient_accumulation_steps a /\
            (0 < learning_rate a)%Q /\
            0 < warmup_steps a /\ max_steps a = 14000 /\
            save_steps a = 1000 /\ eval_steps a = 1000 /\
            logging_steps a = 25 /\ save_total_limit a = 5.
Proof.
  simpl. intros [<-|[<-|[<-|[]]]]; eexists; (split; [reflexivity|]);
    cbn; repeat split; reflexivity.
Qed.

(** C1.  The size "tiny" is among the choices of the parser and has an entry
    in [model_map], yet [get_training_args] has no branch for it: the lookup
    yields [None] for every freeze count, and reading its [output_dir]
    raises [AttributeError]. *)
Theorem get_training_args_tiny_undefined (k : Z) :
  In "tiny" choices /\
  dict_get model_map "tiny" = Ok "openai/whisper-tiny" /\
  get_training_args "tiny" k = None /\
  get_output_dir (get_training_args "tiny" k) = Raise AttributeError.
Proof.
  repeat split; simpl; auto.
Qed.

(** A run for the size "tiny" gets as far as the data collator and then
    stops on that [AttributeError], before any call of [trainer.train]. *)
Example tiny_run_aborts :
  snd (main demo_world "tiny" None initial) = Raise AttributeError /\
  train_call (trace (fst (main demo_world "tiny" None initial))) = None.
Proof. split; reflexivity. Qed.

(** C7.  The output directory of the large model with [k > 0] frozen layers
    contains "freezing-k"; with no frozen layer it contains "vanilla"; the
    output directory of the small model contains "vanilla" whatever the
    freeze count is. *)
Theorem output_dir_naming (k : Z) :
  (k > 0 ->
   exists a, get_training_args "large" k = Some a /\
             contains ("freezing-" +++ str k) (output_dir a) = true) /\
  (exists a, get_training_args "large" 0 = Some a /\
             contains "vanilla" (output_dir a) = true) /\
  (exists a, get_training_args "small" k = Some a /\
             contains "vanilla" (output_dir a) = true).
Proof.
  split; [|split].
  - intros Hk. unfold get_training_args.
    replace (k >? 0) with true by (symmetry; apply Z.gtb_lt; lia).
    cbn [String.eqb Ascii.eqb Bool.eqb andb].
    eexists. split; [reflexivity|]. cbn [output_dir].
    apply (contains_append "../../trained_models/whisper-large-").
  - eexists. split; reflexivity.
  - unfold get_training_args.
    cbn [String.eqb Ascii.eqb Bool.eqb andb].
    eexists. split; reflexivity.
Qed.

Lemma output_dir_naming_witness :
  exists a, get_training_args "large" 3 = Some a /\
            contains "freezing-3" (output_dir a) = true.
Proof.
  apply (proj1 (output_dir_naming 3)). lia.
Defined.

(** ** Layer freezing *)

Lemma getitem_of_nat {A} (l : list A) (i : nat) :
  getitem l (Z.of_nat i) =
  match nth_error l i with Some a => Ok a | None => Raise IndexError end.
Proof.
  unfold getitem.
  replace (Z.of_nat i <? 0) with false by (symmetry; apply Z.ltb_ge; lia).
  rewrite Nat2Z.id.
  destruct (nth_error l i) as [a|] eqn:E.
  - assert (i < List.length l)%nat
      by (apply nth_error_Some; congruence).
    replace (0 <=? Z.of_nat i) with true by (symmetry; apply Z.leb_le; lia).
    replace (Z.of_nat i <? Z.of_nat (List.length l)) with true
      by (symmetry; apply Z.ltb_lt; lia).
    reflexivity.
  - now destruct (_ && _).
Qed.

(** Freezing the parameters of one layer never raises, prints nothing, and
    clears exactly the flags of the parameters listed. *)
Lemma freeze_params_spec (ps : list param) (s : state) :
  let r := for_each ps (fun p => set_requires_grad p false) s in
  snd r = Ok tt /\ trace (fst r) = trace s /\
  forall q, requires_grad (fst r) q =
            if existsb (Nat.eqb q) ps then false else requires_grad s q.
Proof.
  revert s. induction ps as [|p ps IH]; intros s; cbn.
  - auto.
  - unfold mbind. cbn.
    specialize (IH {| trace := trace s;
                      requires_grad := fun q =>
                        if Nat.eqb q p then false else requires_grad s q |}).
    cbn in IH. destruct IH as (Hr & Ht & Hg).
    repeat split; [exact Hr | exact Ht |].
    intros q. rewrite Hg. cbn.
    destruct (Nat.eqb q p); cbn;
      [now destruct (existsb (Nat.eqb q) ps) | reflexivity].
Qed.

Lemma existsb_eqb_In (q : param) (ps : list param) :
  existsb (Nat.eqb q) ps = true <-> In q ps.
Proof.
  rewrite existsb_exists. split.
  - intros (x & Hx & E). apply Nat.eqb_eq in E. now subst.
  - intros H. exists q. split; [exact H | apply Nat.eqb_refl].
Qed.

Lemma freeze_layer_present layers (i : nat) ps (s : state) :
  nth_error layers i = Some ps ->
  freeze_layer layers (Z.of_nat i) s =
  for_each ps (fun p => set_requires_grad p false) s.
Proof.
  intros E. unfold freeze_layer, mbind, lift. now rewrite getitem_of_nat, E.
Qed.

Lemma freeze_layer_absent layers (i : nat) (s : state) :
  nth_error layers i = None ->
  freeze_layer layers (Z.of_nat i) s = (s, Raise IndexError).
Proof.
  intros E. unfold freeze_layer, mbind, lift. now rewrite getitem_of_nat, E.
Qed.

Lemma for_each_cons {A} (x : A) (l : list A) (body : A -> M unit) (s : state) :
  for_each (x :: l) body s =
  match body x s with
  | (s', Ok _) => for_each l body s'
  | (s', Raise e) => (s', Raise e)
  end.
Proof. reflexivity. Qed.

(** The loop never prints and never sets a flag, whether it ends or raises. *)
Lemma freeze_loop_monotone layers (n a : nat) (s : state) :
  let r := for_each (map Z.of_nat (seq a n)) (freeze_layer layers) s in
  trace (fst r) = trace s /\
  forall q, requires_grad s q = false -> requires_grad (fst r) q = false.
Proof.
  revert a s. induction n as [|n IH]; intros a s; cbn [seq map].
  - cbn. auto.
  - rewrite for_each_cons.
    destruct (nth_error layers a) as [ps|] eqn:E.
    + rewrite (freeze_layer_present _ _ _ _ E).
      destruct (freeze_params_spec ps s) as (Hr & Ht & Hg).
      destruct (for_each ps _ s) as [s1 r1]. cbn in Hr, Ht, Hg. subst r1.
      destruct (IH (S a) s1) as (Ht' & Hg'). split.
      * now rewrite Ht'.
      * intros q Hq. apply Hg'. rewrite Hg, Hq.
        now destruct (existsb (Nat.eqb q) ps).
    + rewrite (freeze_layer_absent _ _ _ E). cbn. auto.
Qed.

(** Within the layers the model has, the loop ends normally and clears the
    flags of the layers it visits, and no other flag. *)
Lemma freeze_loop_in_range layers (n a : nat) (s : state) :
  (a + n <= List.length layers)%nat ->
  let r := for_each (map Z.of_nat (seq a n)) (freeze_layer layers) s in
  snd r = Ok tt /\
  (forall q, in_layers layers a n q -> requires_grad (fst r) q = false) /\
  (forall q, ~ in_layers layers a n q ->
             requires_grad (fst r) q = requires_grad s q).
Proof.
  revert a s. induction n as [|n IH]; intros a s Hlen; cbn [seq map].
  - cbn. repeat split; auto. intros q (i & ps & Hi & _). lia.
  - rewrite for_each_cons.
    destruct (nth_error layers a) as [ps|] eqn:E.
    2:{ apply nth_error_None in E. lia. }
    rewrite (freeze_layer_present _ _ _ _ E).
    destruct (freeze_params_spec ps s) as (Hr & Ht & Hg).
    destruct (for_each ps _ s) as [s1 r1]. cbn in Hr, Ht, Hg. subst r1.
    destruct (IH (S a) s1 ltac:(lia)) as (Hok & Hin & Hout).
    destruct (freeze_loop_monotone layers n (S a) s1) as (_ & Hmono).
    cbn in Hmono.
    repeat split; [exact Hok | |].
    + intros q (i & ps' & Hi & Hnth & Hq).
      destruct (Nat.eq_dec i a) as [->|Hne].
      * apply Hmono. rewrite Hg.
        assert (ps' = ps) by congruence. subst ps'.
        apply existsb_eqb_In in Hq. now rewrite Hq.
      * apply Hin. exists i, ps'. repeat split; auto; lia.
    + intros q Hq. rewrite Hout.
      * rewrite Hg. destruct (existsb (Nat.eqb q) ps) eqn:Eq; [|reflexivity].
        exfalso. apply Hq. exists a, ps.
        repeat split; auto; [lia | now apply existsb_eqb_In].
      * intros (i & ps' & Hi & Hnth & Hin'). apply Hq.
        exists i, ps'. repeat split; auto; lia.
Qed.

(** As soon as the loop is asked for a position the model does not have, it
    raises [IndexError]. *)
Lemma freeze_loop_out_of_range layers (n a : nat) (s : state) :
  (a <= List.length layers < a + n)%nat ->
  snd (for_each (map Z.of_nat (seq a n)) (freeze_layer layers) s) =
  Raise IndexError.
Proof.
  revert a s. induction n as [|n IH]; intros a s Hlen; cbn [seq map]; [lia|].
  rewrite for_each_cons.
  destruct (nth_error layers a) as [ps|] eqn:E.
  - rewrite (freeze_layer_present _ _ _ _ E).
    destruct (freeze_params_spec ps s) as (Hr & _).
    destruct (for_each ps _ s) as [s1 r1]. cbn in Hr. subst r1.
    apply IH.
    assert (a < List.length layers)%nat by (apply nth_error_Some; congruence).
    lia.
  - now rewrite (freeze_layer_absent _ _ _ E).
Qed.

Lemma freeze_encoder_pos (N : Z) layers (s : state) :
  N > 0 ->
  freeze_encoder N layers s =
  for_each (range N) (freeze_layer layers)
    {| trace := trace s ++
         [Print ("Freezing the first " +++ str N +++ " encoder layers.")];
       requires_grad := requires_grad s |}.
Proof.
  intros H. unfold freeze_encoder.
  replace (N >? 0) with true by (symmetry; apply Z.gtb_lt; lia).
  reflexivity.
Qed.

Lemma freeze_encoder_nonpos (N : Z) layers (s : state) :
  N <= 0 ->
  freeze_encoder N layers s =
  ({| trace := trace s ++ [Print "No encoder layers are frozen."];
      requires_grad := requires_grad s |}, Ok tt).
Proof.
  intros H. unfold freeze_encoder.
  replace (N >? 0) with false
    by (symmetry; apply not_true_is_false; rewrite Z.gtb_lt; lia).
  reflexivity.
Qed.

(** C3.  A freeze count above the number of encoder layers the model has
    makes the freezing loop raise [IndexError]; it does not stop quietly at
    the last layer. *)
Theorem freeze_beyond_layers_raises (N : Z) layers (s : state) :
  N > Z.of_nat (List.length layers) ->
  snd (freeze_encoder N layers s) = Raise IndexError.
Proof.
  intros H. rewrite freeze_encoder_pos by lia.
  apply freeze_loop_out_of_range. lia.
Qed.

Lemma freeze_beyond_layers_raises_witness :
  snd (freeze_encoder 4 (encoder_layers demo_model) initial) = Raise IndexError.
Proof.
  apply freeze_beyond_layers_raises. simpl. lia.
Defined.

(** C6.  For a freeze count [N] between 0 and the number of encoder layers,
    the freezing step ends normally; afterwards every parameter of the
    layers at positions [0, N) is non-trainable and every other parameter
    has the flag it had before.  The step prints one line saying what it
    does; for [N = 0] that line is "No encoder layers are frozen." and the
    flags are untouched. *)
Theorem freeze_encoder_spec (N : Z) layers (s : state) :
  0 <= N <= Z.of_nat (List.length layers) ->
  let s' := fst (freeze_encoder N layers s) in
  snd (freeze_encoder N layers s) = Ok tt /\
  (forall p, in_layers layers 0 (Z.to_nat N) p -> requires_grad s' p = false) /\
  (forall p, ~ in_layers layers 0 (Z.to_nat N) p ->
             requires_grad s' p = requires_grad s p) /\
  (N > 0 ->
   trace s' = trace s ++
     [Print ("Freezing the first " +++ str N +++ " encoder layers.")]) /\
  (N = 0 ->
   s' = {| trace := trace s ++ [Print "No encoder layers are frozen."];
           requires_grad := requires_grad s |}).
Proof.
  intros H. cbv zeta.
  destruct (Z.eq_dec N 0) as [->|Hne].
  - rewrite freeze_encoder_nonpos by lia. cbn.
    repeat split; auto; try lia.
    intros p (i & ps & Hi & _). lia.
  - rewrite freeze_encoder_pos by lia.
    set (s0 := {| trace := _; requires_grad := requires_grad s |}).
    destruct (freeze_loop_in_range layers (Z.to_nat N) 0 s0 ltac:(lia))
      as (Hok & Hin & Hout).
    destruct (freeze_loop_monotone layers (Z.to_nat N) 0 s0) as (Ht & _).
    repeat split; auto; try lia.
Qed.

Lemma freeze_encoder_spec_witness :
  let s' := fst (freeze_encoder 2 (encoder_layers demo_model) initial) in
  snd (freeze_encoder 2 (encoder_layers demo_model) initial) = Ok tt /\
  map (requires_grad s') [0; 1; 2; 3; 4; 5; 6; 7]%nat =
  [false; false; false; false; true; true; true; true].
Proof.
  destruct (freeze_encoder_spec 2 (encoder_layers demo_model) initial)
    as (Hok & _); [simpl; lia|].
  split; [exact Hok | reflexivity].
Defined.

(** C10.  The freezing step never turns a flag on: a parameter that is
    non-trainable before is non-trainable afterwards, for every freeze
    count, also when the step raises half way. *)
Theorem freeze_never_enables (N : Z) layers (s : state) (p : param) :
  requires_grad s p = false ->
  requires_grad (fst (freeze_encoder N layers s)) p = false.
Proof.
  intros H. destruct (Z_le_gt_dec N 0) as [Hle|Hgt].
  - now rewrite freeze_encoder_nonpos.
  - rewrite freeze_encoder_pos by lia.
    now apply (freeze_loop_monotone layers (Z.to_nat N) 0).
Qed.

Lemma freeze_never_enables_witness :
  requires_grad
    (fst (freeze_encoder 5 (encoder_layers demo_model)
            {| trace := []; requires_grad := fun q => negb (Nat.eqb q 6) |}))
    6%nat = false.
Proof.
  apply freeze_never_enables. reflexivity.
Defined.

(** C2, as stated, fails: with [--freeze_layers -1] the run is not stopped
    before the dataset and the model are loaded; it loads both and goes on
    to call [trainer.train]. *)
Lemma negative_freeze_not_rejected :
  let r := main demo_world "small" (Some (-1)) initial in
  snd r = Ok tt /\
  In (LoadFromDisk "../../data_processed/dataset_dict_small") (trace (fst r)) /\
  In (ModelFromPretrained "openai/whisper-small") (trace (fst r)) /\
  In (Print "No encoder layers are frozen.") (trace (fst r)) /\
  train_call (trace (fst r)) =
    Some (Some "../../trained_models/whisper-small-vanilla/checkpoint-1500").
Proof.
  vm_compute. repeat split; auto 10.
Qed.

(** ** Builtins: [split], [int], the sort *)

Lemma split_free (sep : ascii) (s : string) :
  free_of sep s = true -> split sep s = [s].
Proof.
  induction s as [|c s IH]; cbn; [reflexivity|].
  intros H. apply andb_prop in H. destruct H as [Hc Hs].
  apply negb_true_iff in Hc. rewrite Hc, (IH Hs). reflexivity.
Qed.

Lemma split_append (sep : ascii) (pre rest : string) :
  free_of sep pre = true ->
  split sep (pre +++ String sep rest) = pre :: split sep rest.
Proof.
  induction pre as [|c pre IH]; cbn.
  - intros _. now rewrite Ascii.eqb_refl.
  - intros H. apply andb_prop in H. destruct H as [Hc Hs].
    apply negb_true_iff in Hc. rewrite Hc, (IH Hs). reflexivity.
Qed.

Lemma getitem_head {A} (x : A) (l : list A) : getitem (x :: l) 0 = Ok x.
Proof. apply (getitem_of_nat (x :: l) 0). Qed.

Lemma getitem_second {A} (x y : A) (l : list A) :
  getitem (x :: y :: l) 1 = Ok y.
Proof. apply (getitem_of_nat (x :: y :: l) 1). Qed.

Lemma getitem_exn {A} (l : list A) (i : Z) (e : exn) :
  getitem l i = Raise e -> e = IndexError.
Proof.
  unfold getitem. destruct (_ && _); [|congruence].
  destruct (nth_error _ _); congruence.
Qed.

Lemma int_exn (s : string) (e : exn) : int s = Raise e -> e = ValueError.
Proof.
  unfold int.
  destruct (match lstrip s with EmptyString => _ | String _ _ => _ end)
    as [sign s2].
  destruct (starts_with_digit s2); [|congruence].
  destruct (scan_digits false 0 s2) as [[n rest]|]; [|congruence].
  destruct (all_space rest); congruence.
Qed.

(** The key of an entry raises [IndexError] (no "-" in the name) or
    [ValueError] (the field after the first "-" is no integer), nothing
    else. *)
Lemma sort_key_exn (x : string) (e : exn) :
  sort_key x = Raise e -> e = IndexError \/ e = ValueError.
Proof.
  unfold sort_key, bind.
  destruct (getitem (split "-" x) 1) as [field|e'] eqn:E.
  - intros H. right. exact (int_exn _ _ H).
  - intros H. left. injection H as <-. exact (getitem_exn _ _ _ E).
Qed.


Lemma sort_key_two_fields (pre tok : string) :
  free_of "-" pre = true -> free_of "-" tok = true ->
  sort_key (pre +++ "-" +++ tok) = int tok.
Proof.
  intros Hp Ht. unfold sort_key.
  change (pre +++ "-" +++ tok) with (pre +++ String "-" tok).
  rewrite (split_append _ _ _ Hp), (split_free _ _ Ht), getitem_second.
  reflexivity.
Qed.


Lemma digit_is_plain (c : ascii) (d : Z) :
  digit_value c = Some d ->
  isspace c = false /\ Ascii.eqb c "+" = false /\ Ascii.eqb c "-" = false /\
  Ascii.eqb c "_" = false.
Proof.
  destruct c as [b0 b1 b2 b3 b4 b5 b6 b7].
  destruct b0, b1, b2, b3, b4, b5, b6, b7; cbv;
    intros H; try discriminate H; repeat split.
Qed.

Lemma scan_all_digits (ds : string) (acc : Z) :
  all_digits ds = true ->
  scan_digits false acc ds = Some (numeral_value acc ds, "").
Proof.
  revert acc. induction ds as [|c ds IH]; intros acc H; cbn in *.
  - reflexivity.
  - destruct (digit_value c) as [d|]; [now apply IH | discriminate].
Qed.

Lemma all_digits_free_of_dash (ds : string) :
  all_digits ds = true -> free_of "-" ds = true.
Proof.
  induction ds as [|c ds IH]; cbn; [reflexivity|].
  destruct (digit_value c) as [d|] eqn:E; [|discriminate].
  intros H. destruct (digit_is_plain _ _ E) as (_ & _ & -> & _).
  cbn. now apply IH.
Qed.

(** [int] reads a decimal numeral as its value. *)
Lemma int_numeral (ds : string) :
  numeral ds -> int ds = Ok (numeral_value 0 ds).
Proof.
  intros [Hne Hall]. destruct ds as [|c ds]; [congruence|].
  pose proof Hall as Hall'. cbn in Hall'.
  destruct (digit_value c) as [d|] eqn:E; [|discriminate].
  destruct (digit_is_plain _ _ E) as (Hsp & Hplus & Hminus & _).
  unfold int. cbn [lstrip]. rewrite Hsp, Hplus, Hminus.
  cbn [starts_with_digit]. rewrite E, (scan_all_digits _ _ Hall).
  cbn [all_space]. f_equal. lia.
Qed.

Lemma sort_key_well_formed (name : string) (n : Z) :
  well_formed name n -> sort_key name = Ok n.
Proof.
  intros (ds & Hnum & -> & ->).
  change ("checkpoint-" +++ ds) with ("checkpoint" +++ "-" +++ ds).
  rewrite sort_key_two_fields.
  - now apply int_numeral.
  - reflexivity.
  - apply all_digits_free_of_dash, Hnum.
Qed.

Lemma well_formed_startswith (name : string) (n : Z) :
  well_formed name n -> startswith name "checkpoint" = true.
Proof.
  intros (ds & _ & -> & _). unfold startswith. cbn. now destruct ds.
Qed.

Lemma all_digits_string_of_uint (d : Decimal.uint) :
  all_digits (NilEmpty.string_of_uint d) = true.
Proof. induction d; cbn; auto. Qed.

Lemma numeral_value_of_uint_acc (d : Decimal.uint) (acc : positive) :
  numeral_value (Z.pos acc) (NilEmpty.string_of_uint d) =
  Z.pos (Pos.of_uint_acc d acc).
Proof.
  revert acc. induction d; intros acc; cbn [NilEmpty.string_of_uint numeral_value Pos.of_uint_acc];
    [reflexivity | rewrite <- IHd; f_equal ..];
    match goal with
    | |- context [digit_value ?c] =>
        let v := eval vm_compute in (digit_value c) in
        change (digit_value c) with v
    end; cbv iota; lia.
Qed.

Lemma numeral_value_of_uint (d : Decimal.uint) :
  numeral_value 0 (NilEmpty.string_of_uint d) = Z.of_N (Pos.of_uint d).
Proof.
  induction d; cbn [NilEmpty.string_of_uint numeral_value Pos.of_uint];
    [reflexivity | exact IHd | ..];
    match goal with
    | |- _ = Z.of_N (N.pos (Pos.of_uint_acc _ ?p)) =>
        exact (numeral_value_of_uint_acc d p)
    end.
Qed.

(** What [str] prints for a number from 0 on is a decimal numeral with that
    value. *)
Lemma str_numeral (n : Z) :
  0 <= n -> numeral (str n) /\ numeral_value 0 (str n) = n.
Proof.
  intros H. unfold str. destruct n as [|p|p]; [repeat split; discriminate| |lia].
  cbn [Z.to_int NilZero.string_of_int].
  assert (E : NilZero.string_of_uint (Pos.to_uint p) = NilEmpty.string_of_uint (Pos.to_uint p)).
  { destruct (Pos.to_uint p) eqn:Ep; try reflexivity.
    pose proof (Unsigned.of_to p) as X. rewrite Ep in X. discriminate X. }
  rewrite E. split; [split|].
  - rewrite <- E. now destruct (Pos.to_uint p).
  - apply all_digits_string_of_uint.
  - rewrite numeral_value_of_uint, Unsigned.of_to. reflexivity.
Qed.

(** The names the trainer gives its checkpoints, "checkpoint-" and the
    step printed in decimal, are well formed. *)
Lemma checkpoint_name_well_formed (step : Z) :
  0 <= step -> well_formed ("checkpoint-" +++ str step) step.
Proof.
  intros H. destruct (str_numeral step H) as [Hn Hv].
  exists (str step). auto.
Qed.

(** The head of the sorted list is the first element with the greatest
    key. *)
Lemma sort_desc_head {A} (ks : list (Z * A)) :
  ks <> [] ->
  exists k x rest pre post,
    sort_desc ks = (k, x) :: rest /\
    ks = pre ++ (k, x) :: post /\
    (forall y, In y pre -> fst y < k) /\
    (forall y, In y post -> fst y <= k).
Proof.
  induction ks as [|a ks IH]; [congruence|]. intros _.
  destruct ks as [|b ks'].
  - destruct a as [k x]. exists k, x, [], [], []. cbn.
    repeat split; intros y [].
  - destruct IH as (k & x & rest & pre & post & Hs & Hd & Hpre & Hpost);
      [congruence|].
    change (sort_desc (a :: b :: ks'))
      with (insert_desc a (sort_desc (b :: ks'))).
    rewrite Hs, Hd. cbn [insert_desc fst].
    destruct (fst a <? k) eqn:Hlt.
    + apply Z.ltb_lt in Hlt.
      exists k, x, (insert_desc a rest), (a :: pre), post.
      repeat split; auto.
      intros y [<-|Hy]; auto.
    + apply Z.ltb_ge in Hlt. destruct a as [ka xa]. cbn in Hlt.
      exists ka, xa, ((k, x) :: rest), [], (pre ++ (k, x) :: post).
      repeat split; auto.
      * intros y [].
      * intros y Hy. apply in_app_or in Hy.
        destruct Hy as [Hy|[<-|Hy]]; cbn.
        -- specialize (Hpre y Hy). lia.
        -- exact Hlt.
        -- specialize (Hpost y Hy). lia.
Qed.

Lemma map_result_keys_ok {A} (key : A -> result Z) (l : list A) :
  (forall x, In x l -> exists k, key x = Ok k) ->
  map_result (fun x => k <- key x ;; Ok (k, x)) l =
  Ok (map (fun x => (key_value (key x), x)) l).
Proof.
  induction l as [|a l IH]; intros H; cbn; [reflexivity|].
  destruct (H a (or_introl eq_refl)) as [k Hk]. rewrite Hk. cbn.
  rewrite IH; [reflexivity|]. intros x Hx. apply H. now right.
Qed.

Lemma map_result_keys_raise {A} (key : A -> result Z) (l : list A) x e :
  In x l -> key x = Raise e ->
  exists x' e', In x' l /\ key x' = Raise e' /\
    map_result (fun x => k <- key x ;; Ok (k, x)) l = Raise e'.
Proof.
  induction l as [|a l IH]; intros Hin Hx; [contradiction|].
  cbn. destruct (key a) as [k|e'] eqn:Ha.
  - destruct Hin as [->|Hin]; [congruence|].
    destruct (IH Hin Hx) as (x' & e'' & Hin' & Hk' & Hm).
    exists x', e''. cbn. rewrite Hm. repeat split; auto; now right.
  - exists a, e'. cbn. repeat split; auto; now left.
Qed.

(** ** Checkpoint scan *)

Lemma checkpoints_In (entries : list string) (e : string) :
  In e (checkpoints entries) <->
  In e entries /\ startswith e "checkpoint" = true.
Proof.
  exact (filter_In (fun d => startswith d "checkpoint") e entries).
Qed.

Section LocatorFacts.

Variable listdir : string -> option (list string).

Lemma get_latest_checkpoint_no_dir (dir : string) :
  listdir dir = None -> get_latest_checkpoint listdir dir = Ok None.
Proof. intros H. unfold get_latest_checkpoint. now rewrite H. Qed.

Lemma get_latest_checkpoint_no_candidate (dir : string) entries :
  listdir dir = Some entries ->
  (forall e, In e entries -> startswith e "checkpoint" = false) ->
  get_latest_checkpoint listdir dir = Ok None.
Proof.
  intros H Hno. unfold get_latest_checkpoint. rewrite H.
  destruct (checkpoints entries) as [|e l] eqn:E; [reflexivity|].
  assert (Hin : In e (checkpoints entries)) by (rewrite E; now left).
  apply checkpoints_In in Hin. destruct Hin as [Hin Hs].
  rewrite (Hno e Hin) in Hs. discriminate.
Qed.

(** When every candidate has a key, the scan returns the path of the
    first candidate with the greatest key. *)
Lemma get_latest_checkpoint_first_max (dir : string) entries :
  listdir dir = Some entries ->
  checkpoints entries <> [] ->
  (forall x, In x (checkpoints entries) -> exists k, sort_key x = Ok k) ->
  exists e pre post,
    get_latest_checkpoint listdir dir = Ok (Some (path_join dir e)) /\
    checkpoints entries = pre ++ e :: post /\
    (forall y, In y pre ->
               key_value (sort_key y) < key_value (sort_key e)) /\
    (forall y, In y post ->
               key_value (sort_key y) <= key_value (sort_key e)).
Proof.
  intros H Hne Hkeys. unfold get_latest_checkpoint. rewrite H.
  destruct (checkpoints entries) as [|c0 cs] eqn:E; [congruence|].
  rewrite <- E in *. unfold sort_reverse.
  rewrite (map_result_keys_ok _ _ Hkeys). cbn [bind].
  set (ks := map (fun x => (key_value (sort_key x), x)) (checkpoints entries)).
  assert (Hks : ks <> []).
  { unfold ks. rewrite E. discriminate. }
  destruct (sort_desc_head ks Hks)
    as (k & x & rest & pre & post & Hs & Hd & Hpre & Hpost).
  rewrite Hs. cbn [map snd]. rewrite getitem_head. cbn [bind].
  unfold ks in Hd.
  apply map_eq_app in Hd. destruct Hd as (pre' & tl & Hcp & Hm1 & Hm2).
  apply map_eq_cons in Hm2. destruct Hm2 as (x' & post' & -> & Hx & Hm3).
  injection Hx as Hk ->. subst k.
  exists x, pre', post'. repeat split; auto.
  - intros y Hy. apply (Hpre (key_value (sort_key y), y)).
    rewrite <- Hm1. apply (in_map (fun x => (key_value (sort_key x), x))), Hy.
  - intros y Hy. apply (Hpost (key_value (sort_key y), y)).
    rewrite <- Hm3. apply (in_map (fun x => (key_value (sort_key x), x))), Hy.
Qed.

(** A candidate whose key raises makes the scan raise: the exception of
    the first such candidate in the listing comes out. *)
Lemma get_latest_checkpoint_raises (dir : string) entries e ex :
  listdir dir = Some entries ->
  In e (checkpoints entries) -> sort_key e = Raise ex ->
  exists e' ex', In e' (checkpoints entries) /\ sort_key e' = Raise ex' /\
                 get_latest_checkpoint listdir dir = Raise ex'.
Proof.
  intros H Hin Hex. unfold get_latest_checkpoint. rewrite H.
  destruct (checkpoints entries) as [|c0 cs] eqn:E; [contradiction|].
  rewrite <- E in *. unfold sort_reverse.
  destruct (map_result_keys_raise sort_key _ _ _ Hin Hex)
    as (e' & ex' & Hin' & Hk & Hm).
  exists e', ex'. rewrite Hm. auto.
Qed.

End LocatorFacts.

(** The scan reads nothing but the listing of the directory it is given. *)
Lemma get_latest_checkpoint_ext (ld ld' : string -> option (list string))
      (dir : string) :
  ld dir = ld' dir ->
  get_latest_checkpoint ld dir = get_latest_checkpoint ld' dir.
Proof. intros H. unfold get_latest_checkpoint. now rewrite H. Qed.

(** C5.  Without the directory, or without an entry whose name starts with
    "checkpoint", the scan returns [None].  When there are such entries and
    all of them are named "checkpoint-" and a decimal numeral, it returns
    the path of one of them, whose number is the greatest. *)
Theorem get_latest_checkpoint_spec
        (listdir : string -> option (list string)) (dir : string) :
  (listdir dir = None -> get_latest_checkpoint listdir dir = Ok None) /\
  (forall entries,
     listdir dir = Some entries ->
     (forall e, In e entries -> startswith e "checkpoint" = false) ->
     get_latest_checkpoint listdir dir = Ok None) /\
  (forall entries,
     listdir dir = Some entries ->
     (exists e, In e entries /\ startswith e "checkpoint" = true) ->
     (forall e, In e entries -> startswith e "checkpoint" = true ->
                exists n, well_formed e n) ->
     exists e n,
       get_latest_checkpoint listdir dir = Ok (Some (path_join dir e)) /\
       In e entries /\ well_formed e n /\
       forall e' n', In e' entries -> well_formed e' n' -> n' <= n).
Proof.
  split; [apply get_latest_checkpoint_no_dir|].
  split; [apply get_latest_checkpoint_no_candidate|].
  intros entries H (e0 & Hin0 & Hs0) Hwf.
  assert (Hne : checkpoints entries <> []).
  { intros E. assert (Hc : In e0 (checkpoints entries))
      by (apply checkpoints_In; auto).
    now rewrite E in Hc. }
  assert (Hkeys : forall x, In x (checkpoints entries) ->
                            exists k, sort_key x = Ok k).
  { intros x Hx. apply checkpoints_In in Hx. destruct Hx as [Hx Hsx].
    destruct (Hwf x Hx Hsx) as [n Hn]. exists n.
    now apply sort_key_well_formed. }
  destruct (get_latest_checkpoint_first_max listdir dir entries H Hne Hkeys)
    as (e & pre & post & Hget & Hd & Hpre & Hpost).
  assert (Hc : In e (checkpoints entries)).
  { rewrite Hd. apply in_or_app. right. now left. }
  apply checkpoints_In in Hc. destruct Hc as [Hin Hs].
  destruct (Hwf e Hin Hs) as [n Hn].
  exists e, n. repeat split; auto.
  intros e' n' Hin' Hn'.
  assert (Hc' : In e' (checkpoints entries)).
  { apply checkpoints_In. split; [exact Hin'|].
    exact (well_formed_startswith _ _ Hn'). }
  rewrite Hd in Hc'. apply in_app_or in Hc'.
  pose proof (sort_key_well_formed _ _ Hn) as Kn.
  pose proof (sort_key_well_formed _ _ Hn') as Kn'.
  destruct Hc' as [Hc'|[<-|Hc']].
  - specialize (Hpre _ Hc'). rewrite Kn, Kn' in Hpre. cbn in Hpre. lia.
  - rewrite Kn in Kn'. injection Kn' as ->. lia.
  - specialize (Hpost _ Hc'). rewrite Kn, Kn' in Hpost. cbn in Hpost. lia.
Qed.

Lemma get_latest_checkpoint_spec_witness :
  exists e n,
    get_latest_checkpoint (listdir demo_world)
      "../../trained_models/whisper-small-vanilla" =
      Ok (Some (path_join "../../trained_models/whisper-small-vanilla" e)) /\
    In e demo_listing /\ well_formed e n /\
    forall e' n', In e' demo_listing -> well_formed e' n' -> n' <= n.
Proof.
  apply (proj2 (proj2 (get_latest_checkpoint_spec (listdir demo_world)
                         "../../trained_models/whisper-small-vanilla"))
           demo_listing).
  - reflexivity.
  - exists "checkpoint-500". split; [now left | reflexivity].
  - intros e Hin Hs. simpl in Hin.
    destruct Hin as [<-|[<-|[<-|[<-|[]]]]].
    + exists 500, "500". unfold numeral. repeat split. discriminate.
    + cbv in Hs. discriminate Hs.
    + exists 1500, "1500". unfold numeral. repeat split. discriminate.
    + exists 200, "200". unfold numeral. repeat split. discriminate.
Defined.

(** Among checkpoint-500, checkpoint-1500 and checkpoint-200 the scan
    picks checkpoint-1500. *)
Example get_latest_checkpoint_demo :
  get_latest_checkpoint (listdir demo_world)
    "../../trained_models/whisper-small-vanilla" =
  Ok (Some "../../trained_models/whisper-small-vanilla/checkpoint-1500").
Proof. reflexivity. Qed.

(** Equal numbers: the entry listed first wins. *)
Example get_latest_checkpoint_tie :
  get_latest_checkpoint
    (fun _ => Some ["checkpoint-5"; "checkpoint-7"; "checkpoint-07"]) "out" =
  Ok (Some "out/checkpoint-7").
Proof. reflexivity. Qed.




(** "checkpoint-abc" gives [ValueError], a bare "checkpoint" [IndexError]. *)
Example get_latest_checkpoint_abc :
  get_latest_checkpoint (fun _ => Some ["checkpoint-abc"]) "out" =
    Raise ValueError /\
  get_latest_checkpoint (fun _ => Some ["checkpoint"]) "out" =
    Raise IndexError.
Proof. split; reflexivity. Qed.



(** ** The script: fresh start or resume *)

Lemma train_call_app (t1 t2 : list event) :
  train_call (t1 ++ t2) =
  match train_call t1 with Some r => Some r | None => train_call t2 end.
Proof.
  induction t1 as [|e t1 IH]; cbn; [reflexivity|].
  destruct e; auto.
Qed.

Lemma quiet_ret {A} (a : A) : quiet (ret a).
Proof. intros s. reflexivity. Qed.

Lemma quiet_lift {A} (r : result A) : quiet (lift r).
Proof. intros s. reflexivity. Qed.

Lemma quiet_emit (e : event) :
  train_call [e] = None -> quiet (emit e).
Proof.
  intros H s. cbn. rewrite train_call_app, H.
  now destruct (train_call (trace s)).
Qed.

Lemma quiet_print (line : string) : quiet (print line).
Proof. now apply quiet_emit. Qed.

Lemma quiet_set_requires_grad (p : param) (b : bool) :
  quiet (set_requires_grad p b).
Proof. intros s. reflexivity. Qed.

Lemma quiet_bind {A B} (m : M A) (k : A -> M B) :
  quiet m -> (forall a, quiet (k a)) -> quiet (mbind m k).
Proof.
  intros Hm Hk s. unfold mbind. specialize (Hm s).
  destruct (m s) as [s1 [a|e]]; cbn in *.
  - now rewrite Hk.
  - exact Hm.
Qed.

Lemma quiet_for_each {A} (l : list A) (body : A -> M unit) :
  (forall x, quiet (body x)) -> quiet (for_each l body).
Proof.
  intros Hb. induction l as [|x l IH]; cbn.
  - apply quiet_ret.
  - apply quiet_bind; auto.
Qed.

Lemma quiet_if {A} (b : bool) (m1 m2 : M A) :
  quiet m1 -> quiet m2 -> quiet (if b then m1 else m2).
Proof. now destruct b. Qed.

Create HintDb quiet.
#[local] Hint Resolve quiet_ret quiet_lift quiet_print quiet_set_requires_grad
  quiet_for_each quiet_if : quiet.
#[local] Hint Extern 2 (quiet (mbind _ _)) => apply quiet_bind; [|intros ?] : quiet.
#[local] Hint Extern 1 (quiet (emit _)) => apply quiet_emit; reflexivity : quiet.

Lemma quiet_freeze_encoder (N : Z) layers : quiet (freeze_encoder N layers).
Proof.
  unfold freeze_encoder, freeze_layer. auto 10 with quiet.
Qed.

Lemma quiet_setup (w : World) size freeze : quiet (setup w size freeze).
Proof.
  unfold setup, load_from_disk, get_split, from_pretrained.
  repeat (first
    [ apply quiet_bind; [|intros ?]
    | apply quiet_ret | apply quiet_lift | apply quiet_print
    | apply quiet_emit; reflexivity
    | apply quiet_freeze_encoder
    | match goal with
      | |- quiet (match ?x with _ => _ end) => destruct x
      | |- quiet (fun _ => _) => intros ?; reflexivity
      end ]).
Qed.

Lemma returns_ret {A} (a : A) (P : A -> Prop) : P a -> returns (ret a) P.
Proof. intros H s s' b E. injection E as _ <-. exact H. Qed.

Lemma returns_bind {A B} (m : M A) (k : A -> M B) (P : B -> Prop) :
  (forall a, returns (k a) P) -> returns (mbind m k) P.
Proof.
  intros Hk s s' b. unfold mbind.
  destruct (m s) as [s1 [a|e]]; [apply Hk | discriminate].
Qed.

Lemma returns_lift_bind {A B} (r : result A) (k : A -> M B) (P : B -> Prop) :
  (forall a, r = Ok a -> returns (k a) P) ->
  returns (mbind (lift r) k) P.
Proof.
  intros Hk s s' b. unfold mbind, lift.
  destruct r as [a|e]; [now apply Hk | discriminate].
Qed.

(** What [setup] returns is the parsed command line. *)
Lemma setup_returns_args (w : World) size freeze :
  returns (setup w size freeze)
          (fun am => parse_args size freeze = Ok (fst am)).
Proof.
  unfold setup.
  apply returns_lift_bind. intros args Hargs.
  repeat (apply returns_bind; intros ?).
  now apply returns_ret.
Qed.

Lemma keys_ok_or_raise {A} (key : A -> result Z) (l : list A) :
  (forall x, In x l -> exists k, key x = Ok k) \/
  (exists x e, In x l /\ key x = Raise e).
Proof.
  induction l as [|a l [IH|(x & e & Hin & Hx)]].
  - left. intros x [].
  - destruct (key a) as [k|e] eqn:E.
    + left. intros x [<-|Hx]; eauto.
    + right. exists a, e. split; [now left | exact E].
  - right. exists x, e. split; [now right | exact Hx].
Qed.

(** When the scan returns, it returns [None] for want of a candidate, or
    the path of a candidate. *)
Lemma get_latest_checkpoint_ok (ld : string -> option (list string))
      (dir : string) (r : option string) :
  get_latest_checkpoint ld dir = Ok r ->
  (r = None /\
   (ld dir = None \/
    exists entries, ld dir = Some entries /\ checkpoints entries = [])) \/
  (exists entries e,
     ld dir = Some entries /\ In e (checkpoints entries) /\
     r = Some (path_join dir e)).
Proof.
  intros H. destruct (ld dir) as [entries|] eqn:E.
  2:{ rewrite (get_latest_checkpoint_no_dir ld dir E) in H.
      injection H as <-. left. auto. }
  destruct (checkpoints entries) as [|c0 cs] eqn:Ec.
  { unfold get_latest_checkpoint in H. rewrite E, Ec in H.
    injection H as <-. left. split; [reflexivity|]. right. eauto. }
  right. exists entries.
  destruct (keys_ok_or_raise sort_key (checkpoints entries))
    as [Hok|(x & e & Hin & Hx)].
  - destruct (get_latest_checkpoint_first_max ld dir entries E) as
      (e & pre & post & Hget & Hd & _); [rewrite Ec; discriminate | exact Hok |].
    exists e. rewrite Hget in H. injection H as <-.
    repeat split; auto. rewrite Hd. apply in_or_app. right. now left.
  - destruct (get_latest_checkpoint_raises ld dir entries x e E Hin Hx)
      as (e' & ex' & _ & _ & Hget).
    rewrite Hget in H. discriminate H.
Qed.

(** The path of a candidate is never the empty string, so the test
    [if checkpoint:] and the argument of [trainer.train] agree. *)
Lemma path_join_truthy (dir e : string) :
  startswith e "checkpoint" = true -> truthy (Some (path_join dir e)) = true.
Proof.
  unfold startswith. destruct e as [|c e]; [discriminate|].
  change (String.prefix "checkpoint" (String c e))
    with (if ascii_dec "c" c then String.prefix "heckpoint" e else false).
  destruct (ascii_dec "c" c) as [<-|]; [intros _|discriminate].
  unfold path_join, startswith.
  change (String.prefix "/" (String "c" e)) with false. cbv iota.
  destruct (String.eqb dir "" || endswith_char dir "/");
    destruct dir; reflexivity.
Qed.

(** A run that calls [trainer.train] has parsed its command line, found its
    output directory and scanned it, and passes on what the scan returned. *)
Lemma main_train_call (w : World) size freeze (r : option string) :
  train_call (trace (fst (main w size freeze initial))) = Some r ->
  exists args dir,
    parse_args size freeze = Ok args /\
    get_output_dir
      (get_training_args (model_size args) (freeze_layers args)) = Ok dir /\
    get_latest_checkpoint (listdir w) dir = Ok r.
Proof.
  unfold main, mbind.
  pose proof (quiet_setup w size freeze initial) as Hq.
  pose proof (setup_returns_args w size freeze initial) as Hr.
  destruct (setup w size freeze initial) as [s1 [am|e]]; cbn in Hq.
  2:{ cbn. rewrite Hq. discriminate. }
  specialize (Hr s1 am eq_refl). cbn in Hr.
  destruct am as [args model_id]. cbn [fst snd] in *.
  unfold resume_and_train, mbind, lift.
  destruct (get_output_dir _) as [dir|e] eqn:Hdir.
  2:{ cbn. rewrite Hq. discriminate. }
  destruct (get_latest_checkpoint (listdir w) dir) as [c|e] eqn:Hget.
  2:{ cbn. rewrite Hq. discriminate. }
  intros H. exists args, dir. repeat split; auto. f_equal.
  destruct (truthy c); cbn in H;
    rewrite !train_call_app, Hq in H; cbn in H; congruence.
Qed.

Lemma existsb_eqb_In_str (x : string) (l : list string) :
  In x l -> existsb (String.eqb x) l = true.
Proof.
  intros H. apply existsb_exists. exists x. split; [exact H | apply String.eqb_refl].
Qed.

Lemma freeze_encoder_ok (k : Z) layers (s : state) :
  k <= Z.of_nat (List.length layers) ->
  snd (freeze_encoder k layers s) = Ok tt.
Proof.
  intros H. destruct (Z_le_gt_dec k 0).
  - now rewrite freeze_encoder_nonpos.
  - rewrite freeze_encoder_pos by lia.
    apply (freeze_loop_in_range layers (Z.to_nat k) 0). lia.
Qed.

(** With a size the parser takes, the dataset and the model at hand and a
    freeze count the model has the layers for, [setup] ends normally. *)
Lemma setup_ok (w : World) size k m id splits :
  In size choices ->
  dict_get model_map size = Ok id ->
  datasets w ("../../data_processed/dataset_dict_" +++ size) = Some splits ->
  In "train" splits -> In "eval" splits -> In "test" splits ->
  hub w id = Some m ->
  k <= Z.of_nat (List.length (encoder_layers m)) ->
  snd (setup w size (Some k) initial) =
  Ok ({| model_size := size; freeze_layers := k |}, id).
Proof.
  intros Hsize Hid Hds Htr Hev Hte Hhub Hk.
  unfold setup, parse_args. rewrite (existsb_eqb_In_str _ _ Hsize).
  unfold mbind at 1. unfold lift at 1. cbn [model_size freeze_layers].
  rewrite Hid. unfold mbind at 1. unfold lift at 1.
  unfold load_from_disk, get_split, from_pretrained. rewrite Hds.
  unfold mbind, print, emit, ret, lift. cbv beta iota.
  rewrite !existsb_eqb_In_str by assumption. cbv beta iota.
  rewrite Hhub. cbv beta iota.
  cbn [fst snd trace requires_grad encoder_layers].
  match goal with |- context [freeze_encoder k ?l ?s] =>
    pose proof (freeze_encoder_ok k l s Hk) as Hf;
    destruct (freeze_encoder k l s) as [s2 r2] end.
  cbn in Hf. subst r2. reflexivity.
Qed.

(** Such a run, when its size has a branch in [get_training_args] and the
    scan of the output directory returns, does reach [trainer.train]. *)
Lemma main_reaches_train (w : World) size k m id splits dir r :
  In size choices ->
  dict_get model_map size = Ok id ->
  datasets w ("../../data_processed/dataset_dict_" +++ size) = Some splits ->
  In "train" splits -> In "eval" splits -> In "test" splits ->
  hub w id = Some m ->
  k <= Z.of_nat (List.length (encoder_layers m)) ->
  get_output_dir (get_training_args size k) = Ok dir ->
  get_latest_checkpoint (listdir w) dir = Ok r ->
  snd (main w size (Some k) initial) = Ok tt /\
  train_call (trace (fst (main w size (Some k) initial))) = Some r.
Proof.
  intros Hsize Hid Hds Htr Hev Hte Hhub Hk Hdir Hget.
  pose proof (setup_ok w size k m id splits Hsize Hid Hds Htr Hev Hte Hhub Hk)
    as Hs.
  pose proof (quiet_setup w size (Some k) initial) as Hq.
  unfold main, mbind.
  destruct (setup w size (Some k) initial) as [s1 r1].
  cbn in Hs, Hq. subst r1. cbn [fst snd].
  unfold resume_and_train, mbind, lift. cbn [model_size freeze_layers].
  rewrite Hdir, Hget.
  destruct (truthy r); cbn; rewrite !train_call_app, Hq; auto.
Qed.

(** C8.  A run that reaches the training loop calls it with what the scan of
    the output directory returned: either [None], a fresh start, or the
    path of a checkpoint, a resume, and it is a resume exactly when the
    directory exists and has an entry whose name starts with "checkpoint".
    A second run with the same command line that finds the same directory
    contents makes the same choice. *)
Theorem resume_iff_checkpoint_found
        (w : World) (size : string) (freeze : option Z) (r : option string) :
  train_call (trace (fst (main w size freeze initial))) = Some r ->
  exists args dir,
    parse_args size freeze = Ok args /\
    get_output_dir
      (get_training_args (model_size args) (freeze_layers args)) = Ok dir /\
    get_latest_checkpoint (listdir w) dir = Ok r /\
    (truthy r = false /\ r = None \/
     truthy r = true /\ exists e, r = Some (path_join dir e)) /\
    (r <> None <->
     exists entries e,
       listdir w dir = Some entries /\ In e entries /\
       startswith e "checkpoint" = true) /\
    (forall w' r',
       listdir w' dir = listdir w dir ->
       train_call (trace (fst (main w' size freeze initial))) = Some r' ->
       r' = r).
Proof.
  intros H. destruct (main_train_call w size freeze r H)
    as (args & dir & Hargs & Hdir & Hget).
  exists args, dir. repeat split; auto.
  - destruct (get_latest_checkpoint_ok _ _ _ Hget)
      as [[-> _]|(entries & e & _ & Hin & ->)].
    + left. auto.
    + right. apply checkpoints_In in Hin. destruct Hin as [_ Hs].
      split; [now apply path_join_truthy | eauto].
  - intros Hr. destruct (get_latest_checkpoint_ok _ _ _ Hget)
      as [[-> _]|(entries & e & Hl & Hin & ->)]; [congruence|].
    apply checkpoints_In in Hin. exists entries, e. tauto.
  - intros (entries & e & Hl & Hin & Hs) ->.
    destruct (get_latest_checkpoint_ok _ _ _ Hget)
      as [[_ [Hn|(entries' & Hl' & Hc)]]|(? & ? & _ & _ & ?)];
      try congruence.
    assert (Hc' : In e (checkpoints entries'))
      by (apply checkpoints_In; split; congruence).
    now rewrite Hc in Hc'.
  - intros w' r' Hl H'.
    destruct (main_train_call w' size freeze r' H')
      as (args' & dir' & Hargs' & Hdir' & Hget').
    assert (args' = args) by congruence. subst args'.
    assert (dir' = dir) by congruence. subst dir'.
    rewrite (get_latest_checkpoint_ext _ _ _ Hl) in Hget'. congruence.
Qed.

Lemma resume_iff_checkpoint_found_witness :
  exists args dir,
    parse_args "small" None = Ok args /\
    get_output_dir
      (get_training_args (model_size args) (freeze_layers args)) = Ok dir /\
    get_latest_checkpoint (listdir demo_world) dir =
      Ok (Some "../../trained_models/whisper-small-vanilla/checkpoint-1500").
Proof.
  destruct (resume_iff_checkpoint_found demo_world "small" None
              (Some "../../trained_models/whisper-small-vanilla/checkpoint-1500")
              eq_refl)
    as (args & dir & Hargs & Hdir & Hget & _).
  exists args, dir. auto.
Defined.

(* ================================================================= *)
(** * Further properties of the script *)

(** ** Command line and hyperparameter table *)

Lemma choices_existsb (size : string) :
  existsb (String.eqb size) choices = true <-> In size choices.
Proof.
  rewrite existsb_exists. split.
  - intros (x & Hx & E). apply String.eqb_eq in E. now subst.
  - intros H. exists size. split; [exact H | apply String.eqb_refl].
Qed.

Lemma parse_args_ok (size : string) (freeze : option Z) (args : Namespace) :
  parse_args size freeze = Ok args ->
  In size choices /\ model_size args = size.
Proof.
  unfold parse_args. destruct (existsb _ choices) eqn:E; [|discriminate].
  intros H. injection H as <-. split; [now apply choices_existsb | reflexivity].
Qed.

(** X1.  A size that is none of the four choices stops the run at the
    parser: [SystemExit], with nothing printed, nothing loaded and no flag
    touched. *)
Theorem invalid_size_rejected_first
        (w : World) (size : string) (freeze : option Z) (s : state) :
  ~ In size choices ->
  main w size freeze s = (s, Raise SystemExit).
Proof.
  intros H. unfold main, setup, parse_args, mbind, lift.
  destruct (existsb (String.eqb size) choices) eqn:E; [|reflexivity].
  apply choices_existsb in E. contradiction.
Qed.

Lemma invalid_size_rejected_first_witness :
  main demo_world "base" (Some 2) initial = (initial, Raise SystemExit).
Proof.
  apply invalid_size_rejected_first. simpl.
  intros [H|[H|[H|[H|[]]]]]; discriminate H.
Defined.

(** X2.  Every size the parser lets through has an entry in [model_map], so
    the lookup [model_map[args.model_size]] cannot raise [KeyError]; the
    identifier found is one of the "openai/whisper-" models. *)
Theorem model_map_covers_choices
        (size : string) (freeze : option Z) (args : Namespace) :
  parse_args size freeze = Ok args ->
  exists model_id,
    dict_get model_map (model_size args) = Ok model_id /\
    startswith model_id ("openai/whisper-" +++ size) = true.
Proof.
  intros H. destruct (parse_args_ok _ _ _ H) as [Hin ->]. simpl in Hin.
  destruct Hin as [<-|[<-|[<-|[<-|[]]]]]; eexists; split; reflexivity.
Qed.

Lemma model_map_covers_choices_witness :
  exists model_id,
    dict_get model_map "large" = Ok model_id /\
    startswith model_id "openai/whisper-large" = true.
Proof.
  apply (model_map_covers_choices "large" None
           {| model_size := "large"; freeze_layers := 0 |}).
  reflexivity.
Defined.

Lemma get_training_args_some (size : string) (k : Z) a :
  get_training_args size k = Some a -> In size ["small"; "medium"; "large"].
Proof.
  unfold get_training_args.
  destruct (String.eqb size "small") eqn:E1;
    [apply String.eqb_eq in E1; subst; simpl; auto|].
  destruct (String.eqb size "medium") eqn:E2;
    [apply String.eqb_eq in E2; subst; simpl; auto|].
  destruct (String.eqb size "large") eqn:E3;
    [apply String.eqb_eq in E3; subst; simpl; auto|].
  discriminate.
Qed.

(** X3.  [get_training_args] returns a configuration for the sizes "small",
    "medium" and "large" and for no other string.  Every configuration it
    returns trains with 16 examples per optimizer step (batch size times
    accumulation steps), warms up for less than the 14000 steps it runs,
    and saves when it evaluates, every 1000 steps, keeping the best model
    by the lowest "wer". *)
Theorem get_training_args_domain_and_budget (size : string) (k : Z) :
  (get_training_args size k <> None <->
   In size ["small"; "medium"; "large"]) /\
  (forall a, get_training_args size k = Some a ->
     per_device_train_batch_size a * gradient_accumulation_steps a = 16 /\
     0 < warmup_steps a < max_steps a /\
     eval_strategy a = "steps" /\
     save_steps a = eval_steps a /\
     max_steps a mod save_steps a = 0 /\
     load_best_model_at_end a = true /\
     metric_for_best_model a = "wer" /\
     greater_is_better a = false).
Proof.
  split.
  - split.
    + destruct (get_training_args size k) as [a|] eqn:E; [|congruence].
      intros _. exact (get_training_args_some _ _ _ E).
    + intros H.
      destruct (get_training_args_defined size k H) as (a & E & _).
      congruence.
  - intros a E. pose proof (get_training_args_some _ _ _ E) as H.
    simpl in H. destruct H as [<-|[<-|[<-|[]]]];
      unfold get_training_args in E;
      cbn [String.eqb Ascii.eqb Bool.eqb andb] in E;
      injection E as <-; cbn; repeat split; lia.
Qed.

Lemma get_training_args_domain_and_budget_witness :
  exists a, get_training_args "medium" 0 = Some a /\
            per_device_train_batch_size a * gradient_accumulation_steps a = 16.
Proof.
  destruct (get_training_args_domain_and_budget "medium" 0) as [_ H].
  eexists. split; [reflexivity|]. now apply H.
Defined.

Lemma vanilla_dir (size : string) (k : Z) a :
  get_training_args size k = Some a ->
  size <> "large" \/ k <= 0 ->
  output_dir a = "../../trained_models/whisper-" +++ size +++ "-vanilla".
Proof.
  intros E H. pose proof (get_training_args_some _ _ _ E) as Hs.
  unfold get_training_args in E.
  assert (Hc : String.eqb size "large" && (k >? 0) = false).
  { destruct H as [H|H].
    - apply String.eqb_neq in H. now rewrite H.
    - replace (k >? 0) with false; [apply andb_false_r|].
      symmetry. apply not_true_is_false. rewrite Z.gtb_lt. lia. }
  rewrite Hc in E. simpl in Hs.
  destruct Hs as [<-|[<-|[<-|[]]]];
    cbn [String.eqb Ascii.eqb Bool.eqb] in E; injection E as <-; reflexivity.
Qed.

(** X4.  Only the large model with a positive freeze count gets a directory
    of its own.  For every other size, and for the large model with a count
    of 0 or less, the output directory is "whisper-<size>-vanilla" whatever
    the freeze count: a small model trained with frozen layers shares its
    directory, and so its checkpoints, with the unfrozen one. *)
Theorem output_dir_ignores_freeze_unless_large (size : string) (k : Z) a :
  get_training_args size k = Some a ->
  size <> "large" \/ k <= 0 ->
  output_dir a = "../../trained_models/whisper-" +++ size +++ "-vanilla".
Proof. apply vanilla_dir. Qed.

Lemma output_dir_ignores_freeze_unless_large_witness :
  exists a, get_training_args "small" 3 = Some a /\
            output_dir a = "../../trained_models/whisper-small-vanilla".
Proof.
  eexists. split; [reflexivity|].
  apply (output_dir_ignores_freeze_unless_large "small" 3); [reflexivity|].
  left. discriminate.
Defined.

Lemma append_cancel_l (p x y : string) : p +++ x = p +++ y -> x = y.
Proof.
  induction p as [|c p IH]; cbn; [auto|].
  intros H. injection H as H. auto.
Qed.

Lemma str_injective (m n : Z) : 0 <= m -> 0 <= n -> str m = str n -> m = n.
Proof.
  intros Hm Hn E.
  destruct (str_numeral m Hm) as [_ Vm].
  destruct (str_numeral n Hn) as [_ Vn].
  rewrite E in Vm. congruence.
Qed.

Lemma large_freezing_dir (k : Z) a :
  k > 0 -> get_training_args "large" k = Some a ->
  output_dir a = "../../trained_models/whisper-large-freezing-" +++ str k.
Proof.
  intros Hk E. unfold get_training_args in E.
  replace (k >? 0) with true in E by (symmetry; apply Z.gtb_lt; lia).
  cbn [String.eqb Ascii.eqb Bool.eqb andb] in E.
  injection E as <-. reflexivity.
Qed.

(** X5.  For the large model, two different positive freeze counts give two
    different output directories, and neither is the directory of the
    unfrozen model: runs with different numbers of frozen layers never
    find each other's checkpoints. *)
Theorem large_freeze_dirs_distinct (k1 k2 : Z) :
  k1 > 0 -> k2 > 0 ->
  exists a1 a2 a0,
    get_training_args "large" k1 = Some a1 /\
    get_training_args "large" k2 = Some a2 /\
    get_training_args "large" 0 = Some a0 /\
    (output_dir a1 = output_dir a2 -> k1 = k2) /\
    output_dir a1 <> output_dir a0.
Proof.
  intros H1 H2.
  destruct (get_training_args_defined "large" k1) as (a1 & E1 & _);
    [simpl; auto|].
  destruct (get_training_args_defined "large" k2) as (a2 & E2 & _);
    [simpl; auto|].
  destruct (get_training_args_defined "large" 0) as (a0 & E0 & _);
    [simpl; auto|].
  exists a1, a2, a0. repeat split; auto.
  - rewrite (large_freezing_dir k1 a1 H1 E1), (large_freezing_dir k2 a2 H2 E2).
    intros E. apply append_cancel_l in E. apply str_injective; auto; lia.
  - rewrite (large_freezing_dir k1 a1 H1 E1).
    injection E0 as <-. cbn [output_dir]. intros E.
    apply (append_cancel_l "../../trained_models/whisper-large-"
             ("freezing-" +++ str k1) "vanilla") in E.
    discriminate E.
Qed.

Lemma large_freeze_dirs_distinct_witness :
  exists a1 a2 a0,
    get_training_args "large" 3 = Some a1 /\
    get_training_args "large" 30 = Some a2 /\
    get_training_args "large" 0 = Some a0 /\
    (output_dir a1 = output_dir a2 -> 3 = 30) /\
    output_dir a1 <> output_dir a0.
Proof.
  apply large_freeze_dirs_distinct; lia.
Defined.

Lemma endswith_char_append (p s : string) (c : ascii) :
  s <> "" -> endswith_char (p +++ s) c = endswith_char s c.
Proof.
  intros Hs. induction p as [|a p IH]; [reflexivity|].
  cbn [String.append]. cbn [endswith_char].
  destruct (p +++ s) eqn:E; [|exact IH].
  destruct p; cbn in E; [contradiction | discriminate].
Qed.

Lemma digit_not_slash (c : ascii) (d : Z) :
  digit_value c = Some d -> Ascii.eqb c "/" = false.
Proof.
  destruct c as [b0 b1 b2 b3 b4 b5 b6 b7].
  destruct b0, b1, b2, b3, b4, b5, b6, b7; cbv;
    intros H; try discriminate H; reflexivity.
Qed.

Lemma numeral_not_endswith_slash (s : string) :
  all_digits s = true -> endswith_char s "/" = false.
Proof.
  induction s as [|c s IH]; [reflexivity|].
  cbn [all_digits]. destruct (digit_value c) as [d|] eqn:E; [|discriminate].
  intros H. cbn [endswith_char].
  destruct s; [exact (digit_not_slash _ _ E) | exact (IH H)].
Qed.

(** The output directories of the script are not empty and do not end in a
    slash. *)
Lemma output_dir_plain (size : string) (k : Z) a :
  get_training_args size k = Some a ->
  String.eqb (output_dir a) "" = false /\
  endswith_char (output_dir a) "/" = false.
Proof.
  intros E.
  destruct (Z_le_gt_dec k 0) as [Hk|Hk];
    [| destruct (String.eqb size "large") eqn:El].
  - rewrite (vanilla_dir size k a E (or_intror Hk)).
    pose proof (get_training_args_some _ _ _ E) as Hs. simpl in Hs.
    destruct Hs as [<-|[<-|[<-|[]]]]; split; reflexivity.
  - apply String.eqb_eq in El. subst size.
    rewrite (large_freezing_dir k a Hk E). split; [reflexivity|].
    destruct (str_numeral k ltac:(lia)) as [[Hne Hall] _].
    rewrite endswith_char_append by exact Hne.
    now apply numeral_not_endswith_slash.
  - apply String.eqb_neq in El.
    rewrite (vanilla_dir size k a E (or_introl El)).
    pose proof (get_training_args_some _ _ _ E) as Hs. simpl in Hs.
    destruct Hs as [<-|[<-|[<-|[]]]]; split; reflexivity.
Qed.

(** X6.  Whatever the scan returns for an output directory of the script is
    that directory, a slash and the name of one of its entries that starts
    with "checkpoint": [os.path.join] has no special case to fall into
    there. *)
Theorem checkpoint_path_shape
        (ld : string -> option (list string)) (size : string) (k : Z) a
        (path : string) :
  get_training_args size k = Some a ->
  get_latest_checkpoint ld (output_dir a) = Ok (Some path) ->
  exists entries e,
    ld (output_dir a) = Some entries /\ In e entries /\
    startswith e "checkpoint" = true /\
    path = output_dir a +++ "/" +++ e.
Proof.
  intros E H.
  destruct (get_latest_checkpoint_ok _ _ _ H)
    as [[Hn _]|(entries & e & Hl & Hin & Hp)]; [discriminate|].
  apply checkpoints_In in Hin. destruct Hin as [Hin Hs].
  exists entries, e. repeat split; auto.
  injection Hp as ->. destruct (output_dir_plain _ _ _ E) as [He Hsl].
  unfold path_join. rewrite He, Hsl. cbn [orb].
  unfold startswith in *. destruct e as [|c e]; [discriminate Hs|].
  change (String.prefix "checkpoint" (String c e))
    with (if ascii_dec "c" c then String.prefix "heckpoint" e else false) in Hs.
  destruct (ascii_dec "c" c) as [<-|]; [reflexivity | discriminate Hs].
Qed.

Lemma checkpoint_path_shape_witness :
  exists entries e,
    listdir demo_world "../../trained_models/whisper-small-vanilla" =
      Some entries /\ In e entries /\
    startswith e "checkpoint" = true /\
    "../../trained_models/whisper-small-vanilla/checkpoint-1500" =
    "../../trained_models/whisper-small-vanilla" +++ "/" +++ e.
Proof.
  destruct (get_training_args "small" 0) as [a|] eqn:E; [|discriminate E].
  pose proof (checkpoint_path_shape (listdir demo_world) "small" 0 a
                "../../trained_models/whisper-small-vanilla/checkpoint-1500" E)
    as H.
  injection E as <-. apply H. reflexivity.
Defined.

(** ** Checkpoint scan *)

(** X7.  When several candidates carry the greatest number, as
    "checkpoint-7" and "checkpoint-07" do, the scan returns the one the
    listing has first: every candidate listed before the one returned has a
    strictly smaller number, every one after it a number that is not
    greater. *)
Theorem latest_checkpoint_is_first_maximum
        (ld : string -> option (list string)) (dir : string)
        (entries : list string) :
  ld dir = Some entries ->
  checkpoints entries <> [] ->
  (forall x, In x (checkpoints entries) -> exists k, sort_key x = Ok k) ->
  exists e pre post,
    get_latest_checkpoint ld dir = Ok (Some (path_join dir e)) /\
    checkpoints entries = pre ++ e :: post /\
    (forall y, In y pre ->
               key_value (sort_key y) < key_value (sort_key e)) /\
    (forall y, In y post ->
               key_value (sort_key y) <= key_value (sort_key e)).
Proof. apply get_latest_checkpoint_first_max. Qed.

Lemma latest_checkpoint_is_first_maximum_witness :
  exists e pre post,
    get_latest_checkpoint
      (fun _ => Some ["checkpoint-5"; "notes"; "checkpoint-7"; "checkpoint-07"])
      "out" = Ok (Some (path_join "out" e)) /\
    checkpoints ["checkpoint-5"; "notes"; "checkpoint-7"; "checkpoint-07"] =
      pre ++ e :: post /\
    (forall y, In y pre ->
               key_value (sort_key y) < key_value (sort_key e)) /\
    (forall y, In y post ->
               key_value (sort_key y) <= key_value (sort_key e)).
Proof.
  apply (latest_checkpoint_is_first_maximum
           (fun _ => Some ["checkpoint-5"; "notes"; "checkpoint-7";
                           "checkpoint-07"]) "out").
  - reflexivity.
  - discriminate.
  - intros x Hx. cbn in Hx.
    destruct Hx as [<-|[<-|[<-|[]]]]; eexists; reflexivity.
Defined.

Lemma first_maximum_is_maximum (key : string -> Z) (l pre post : list string)
      (e : string) :
  l = pre ++ e :: post ->
  (forall y, In y pre -> key y < key e) ->
  (forall y, In y post -> key y <= key e) ->
  forall y, In y l -> key y <= key e.
Proof.
  intros -> Hpre Hpost y Hy. apply in_app_or in Hy.
  destruct Hy as [Hy|[<-|Hy]]; [specialize (Hpre y Hy) | | auto]; lia.
Qed.

Lemma checkpoints_Permutation (entries entries' : list string) (e : string) :
  Permutation entries entries' ->
  In e (checkpoints entries) -> In e (checkpoints entries').
Proof.
  intros P H. apply checkpoints_In in H. apply checkpoints_In.
  destruct H as [H Hs]. split; [exact (Permutation_in _ P H) | exact Hs].
Qed.

(** X8.  [os.listdir] returns the entries in no particular order.  When the
    candidates all have a number and no two have the same, the order does
    not matter: the scan gives the same result for every listing of the
    same entries. *)
Theorem latest_checkpoint_order_independent
        (ld ld' : string -> option (list string)) (dir : string)
        (entries entries' : list string) :
  ld dir = Some entries -> ld' dir = Some entries' ->
  Permutation entries entries' ->
  (forall x, In x (checkpoints entries) -> exists k, sort_key x = Ok k) ->
  (forall x y, In x (checkpoints entries) -> In y (checkpoints entries) ->
               key_value (sort_key x) = key_value (sort_key y) -> x = y) ->
  get_latest_checkpoint ld dir = get_latest_checkpoint ld' dir.
Proof.
  intros Hl Hl' P Hkeys Hinj.
  assert (P' : Permutation entries' entries) by now apply Permutation_sym.
  destruct (checkpoints entries) as [|c0 cs] eqn:Ec.
  - rewrite (get_latest_checkpoint_no_candidate ld dir entries Hl),
            (get_latest_checkpoint_no_candidate ld' dir entries' Hl');
      [reflexivity | |].
    + intros e He. destruct (startswith e "checkpoint") eqn:Es; auto.
      assert (X : In e (checkpoints entries)).
      { apply (checkpoints_Permutation entries' entries e P').
        apply checkpoints_In. auto. }
      rewrite Ec in X. contradiction.
    + intros e He. destruct (startswith e "checkpoint") eqn:Es; auto.
      assert (X : In e (checkpoints entries))
        by (apply checkpoints_In; auto).
      rewrite Ec in X. contradiction.
  - rewrite <- Ec in *.
    assert (Hne : checkpoints entries <> []) by (rewrite Ec; discriminate).
    assert (Hne' : checkpoints entries' <> []).
    { intros E. assert (X : In c0 (checkpoints entries'))
        by (apply (checkpoints_Permutation entries entries' c0 P);
            rewrite Ec; now left).
      now rewrite E in X. }
    assert (Hkeys' : forall x, In x (checkpoints entries') ->
                               exists k, sort_key x = Ok k).
    { intros x Hx. apply Hkeys.
      exact (checkpoints_Permutation entries' entries x P' Hx). }
    destruct (get_latest_checkpoint_first_max ld dir entries Hl Hne Hkeys)
      as (e & pre & post & Hget & Hd & Hpre & Hpost).
    destruct (get_latest_checkpoint_first_max ld' dir entries' Hl' Hne' Hkeys')
      as (e' & pre' & post' & Hget' & Hd' & Hpre' & Hpost').
    pose proof (first_maximum_is_maximum
                  (fun x => key_value (sort_key x)) _ _ _ _ Hd Hpre Hpost)
      as Hmax.
    pose proof (first_maximum_is_maximum
                  (fun x => key_value (sort_key x)) _ _ _ _ Hd' Hpre' Hpost')
      as Hmax'.
    assert (He : In e (checkpoints entries))
      by (rewrite Hd; apply in_or_app; right; now left).
    assert (He' : In e' (checkpoints entries'))
      by (rewrite Hd'; apply in_or_app; right; now left).
    assert (e = e').
    { apply Hinj; auto.
      - exact (checkpoints_Permutation entries' entries e' P' He').
      - pose proof (Hmax e' (checkpoints_Permutation entries' entries e' P' He')).
        pose proof (Hmax' e (checkpoints_Permutation entries entries' e P He)).
        cbn beta in *. lia. }
    subst e'. now rewrite Hget, Hget'.
Qed.

Lemma latest_checkpoint_order_independent_witness :
  get_latest_checkpoint (fun _ => Some ["checkpoint-500"; "checkpoint-1500"])
    "out" =
  get_latest_checkpoint (fun _ => Some ["checkpoint-1500"; "checkpoint-500"])
    "out".
Proof.
  apply (latest_checkpoint_order_independent _ _ "out"
           ["checkpoint-500"; "checkpoint-1500"]
           ["checkpoint-1500"; "checkpoint-500"]).
  - reflexivity.
  - reflexivity.
  - apply perm_swap.
  - intros x Hx. cbn in Hx. destruct Hx as [<-|[<-|[]]]; eexists; reflexivity.
  - intros x y Hx Hy. cbn in Hx, Hy.
    destruct Hx as [<-|[<-|[]]]; destruct Hy as [<-|[<-|[]]];
      cbv; intros H; try reflexivity; discriminate H.
Defined.

Lemma split_two_fields (sep : ascii) (s : string) :
  free_of sep s = false -> exists a b l, split sep s = a :: b :: l.
Proof.
  induction s as [|c s IH]; cbn; [discriminate|].
  destruct (Ascii.eqb c sep) eqn:E; cbn.
  - intros _. destruct (split sep s) as [|b l] eqn:Es.
    + destruct s; cbn in Es; [discriminate|].
      destruct (Ascii.eqb a sep); [discriminate|].
      destruct (split sep s); discriminate.
    + eauto.
  - intros H. destruct (IH H) as (a & b & l & ->). eauto.
Qed.

(** Only a name without any "-" has a key that raises [IndexError]. *)
Lemma sort_key_IndexError (x : string) :
  sort_key x = Raise IndexError -> free_of "-" x = true.
Proof.
  intros H. destruct (free_of "-" x) eqn:E; [reflexivity|].
  destruct (split_two_fields _ _ E) as (a & b & l & Es).
  unfold sort_key in H. rewrite Es, getitem_second in H. cbn [bind] in H.
  apply int_exn in H. discriminate H.
Qed.

(** X9.  In a directory that exists the scan raises exactly when the key of
    some entry starting with "checkpoint" raises; what comes out is
    [IndexError] or [ValueError], and [IndexError] only when some such
    entry has no "-" in its name.  Entries that do not start with
    "checkpoint" never make it raise. *)
Theorem scan_raises_iff_bad_candidate
        (ld : string -> option (list string)) (dir : string)
        (entries : list string) :
  ld dir = Some entries ->
  ((exists ex, get_latest_checkpoint ld dir = Raise ex) <->
   (exists e ex, In e entries /\ startswith e "checkpoint" = true /\
                 sort_key e = Raise ex)) /\
  (forall ex, get_latest_checkpoint ld dir = Raise ex ->
              ex = IndexError \/ ex = ValueError) /\
  (get_latest_checkpoint ld dir = Raise IndexError ->
   exists e, In e entries /\ startswith e "checkpoint" = true /\
             free_of "-" e = true).
Proof.
  intros Hl.
  assert (Hr : forall ex, get_latest_checkpoint ld dir = Raise ex ->
                 exists e, In e (checkpoints entries) /\ sort_key e = Raise ex).
  { intros ex H.
    destruct (keys_ok_or_raise sort_key (checkpoints entries))
      as [Hok|(x & e & Hin & Hx)].
    - destruct (checkpoints entries) as [|c0 cs] eqn:Ec.
      + unfold get_latest_checkpoint in H. rewrite Hl, Ec in H. discriminate H.
      + rewrite <- Ec in Hok.
        destruct (get_latest_checkpoint_first_max ld dir entries Hl)
          as (e & _ & _ & Hget & _);
          [rewrite Ec; discriminate | exact Hok |].
        rewrite Hget in H. discriminate H.
    - destruct (get_latest_checkpoint_raises ld dir entries x e Hl Hin Hx)
        as (e' & ex' & Hin' & Hk' & Hget).
      exists e'. split; [exact Hin' | congruence]. }
  split; [split|split].
  - intros [ex H]. destruct (Hr ex H) as (e & Hin & Hk).
    apply checkpoints_In in Hin. exists e, ex. tauto.
  - intros (e & ex & Hin & Hs & Hk).
    assert (Hc : In e (checkpoints entries)) by (apply checkpoints_In; auto).
    destruct (get_latest_checkpoint_raises ld dir entries e ex Hl Hc Hk)
      as (_ & ex' & _ & _ & Hget).
    eauto.
  - intros ex H. destruct (Hr ex H) as (e & _ & Hk).
    exact (sort_key_exn _ _ Hk).
  - intros H. destruct (Hr _ H) as (e & Hin & Hk).
    apply checkpoints_In in Hin. exists e.
    repeat split; try tauto. exact (sort_key_IndexError _ Hk).
Qed.

Lemma scan_raises_iff_bad_candidate_witness :
  (exists ex,
     get_latest_checkpoint
       (fun _ => Some ["checkpoint-9"; "checkpoint"; "x-y"]) "out" = Raise ex)
  <->
  (exists e ex, In e ["checkpoint-9"; "checkpoint"; "x-y"] /\
                startswith e "checkpoint" = true /\ sort_key e = Raise ex).
Proof.
  apply (scan_raises_iff_bad_candidate
           (fun _ => Some ["checkpoint-9"; "checkpoint"; "x-y"]) "out").
  reflexivity.
Defined.

Lemma split_fields_free (sep : ascii) (s f : string) :
  In f (split sep s) -> free_of sep f = true.
Proof.
  revert f. induction s as [|c s IH]; cbn; intros f.
  - intros [<-|[]]. reflexivity.
  - destruct (Ascii.eqb c sep) eqn:E.
    + intros [<-|H]; [reflexivity | auto].
    + destruct (split sep s) as [|w ws].
      * intros [<-|[]]. cbn. now rewrite E.
      * intros [<-|H].
        -- cbn. rewrite E. cbn. apply IH. now left.
        -- apply IH. now right.
Qed.

Lemma lstrip_free (c : ascii) (s : string) :
  free_of c s = true -> free_of c (lstrip s) = true.
Proof.
  induction s as [|a s IH]; cbn; [auto|].
  intros H. destruct (isspace a); [|exact H].
  apply andb_prop in H. now apply IH.
Qed.

Lemma digit_value_range (c : ascii) (d : Z) :
  digit_value c = Some d -> 0 <= d <= 9.
Proof.
  unfold digit_value.
  destruct ((48 <=? N_of_ascii c)%N && (N_of_ascii c <=? 57)%N) eqn:E;
    [|discriminate].
  apply andb_prop in E. destruct E as [E1 E2].
  apply N.leb_le in E1, E2. intros H. injection H as <-. lia.
Qed.

Lemma scan_digits_nonneg (s : string) (b : bool) (acc n : Z) (rest : string) :
  0 <= acc -> scan_digits b acc s = Some (n, rest) -> 0 <= n.
Proof.
  revert b acc. induction s as [|c s IH]; intros b acc Hacc; cbn [scan_digits].
  - destruct b; [discriminate|]. intros H. injection H as <- _. exact Hacc.
  - destruct (digit_value c) as [d|] eqn:E.
    + apply IH. pose proof (digit_value_range _ _ E). lia.
    + destruct (Ascii.eqb c "_").
      * destruct b; [discriminate|]. now apply IH.
      * destruct b; [discriminate|]. intros H. injection H as <- _. exact Hacc.
Qed.

Lemma int_nonneg (s : string) (k : Z) :
  free_of "-" s = true -> int s = Ok k -> 0 <= k.
Proof.
  intros Hf. apply (lstrip_free "-") in Hf. unfold int.
  destruct (lstrip s) as [|c r] eqn:E.
  - cbn. discriminate.
  - cbn in Hf. apply andb_prop in Hf. destruct Hf as [Hc _].
    apply negb_true_iff in Hc. rewrite Hc.
    destruct (Ascii.eqb c "+");
      (destruct (starts_with_digit _); [|discriminate]);
      (destruct (scan_digits false 0 _) as [[n rest]|] eqn:Es; [|discriminate]);
      (destruct (all_space rest); [|discriminate]);
      intros H; injection H as <-;
      pose proof (scan_digits_nonneg _ _ _ _ _ (Z.le_refl 0) Es);
      now destruct n.
Qed.

(** X10.  The number read from a name is never negative: the field handed to
    [int] comes out of [split("-")], so it holds no minus sign.  A name such
    as "checkpoint--5" is not step -5; its key raises. *)
Theorem sort_key_never_negative (x : string) (k : Z) :
  sort_key x = Ok k -> 0 <= k.
Proof.
  unfold sort_key.
  destruct (getitem (split "-" x) 1) as [field|e] eqn:E; [|discriminate].
  cbn [bind]. apply int_nonneg.
  apply (split_fields_free "-" x).
  unfold getitem in E. destruct (_ && _); [|discriminate].
  destruct (nth_error _ _) as [f|] eqn:En; [|discriminate].
  injection E as <-. exact (nth_error_In _ _ En).
Qed.

Lemma sort_key_never_negative_witness :
  0 <= 1500 /\ sort_key "checkpoint--5" = Raise ValueError.
Proof.
  split; [apply (sort_key_never_negative "checkpoint-1500") |]; reflexivity.
Defined.

(** ** Layer freezing *)

Lemma frozen_by_in_layers layers (n : nat) (p : param) :
  frozen_by layers n p = true <-> in_layers layers 0 n p.
Proof.
  unfold frozen_by, in_layers. rewrite existsb_exists. split.
  - intros (ps & Hin & Hp). apply In_nth_error in Hin. destruct Hin as [i Hi].
    rewrite nth_error_firstn in Hi.
    destruct (Nat.ltb i n) eqn:Elt; [|discriminate].
    apply Nat.ltb_lt in Elt. exists i, ps.
    repeat split; auto; [lia | now apply existsb_eqb_In].
  - intros (i & ps & Hi & Hnth & Hp). exists ps. split.
    + apply (nth_error_In _ i). rewrite nth_error_firstn.
      replace (Nat.ltb i n) with true by (symmetry; apply Nat.ltb_lt; lia).
      exact Hnth.
    + now apply existsb_eqb_In.
Qed.

(** The flags after the freezing step, for a count the model has the layers
    for. *)
Lemma freeze_encoder_flags (N : Z) layers (s : state) (p : param) :
  N <= Z.of_nat (List.length layers) ->
  requires_grad (fst (freeze_encoder N layers s)) p =
  if frozen_by layers (Z.to_nat N) p then false else requires_grad s p.
Proof.
  intros H. destruct (Z_le_gt_dec N 0) as [Hle|Hgt].
  - rewrite freeze_encoder_nonpos by exact Hle.
    replace (Z.to_nat N) with 0%nat by lia. reflexivity.
  - rewrite freeze_encoder_pos by exact Hgt.
    set (s0 := {| trace := _; requires_grad := requires_grad s |}).
    destruct (freeze_loop_in_range layers (Z.to_nat N) 0 s0 ltac:(lia))
      as (_ & Hin & Hout).
    destruct (frozen_by layers (Z.to_nat N) p) eqn:E.
    + apply Hin. now apply frozen_by_in_layers.
    + rewrite Hout; [reflexivity|].
      rewrite <- frozen_by_in_layers. congruence.
Qed.

Lemma frozen_by_max layers (n m : nat) (p : param) :
  frozen_by layers (Nat.max n m) p =
  frozen_by layers n p || frozen_by layers m p.
Proof.
  assert (Hmono : forall a b, (a <= b)%nat ->
            frozen_by layers a p = true -> frozen_by layers b p = true).
  { intros a b Hab Ha. apply frozen_by_in_layers in Ha.
    apply frozen_by_in_layers. destruct Ha as (i & ps & Hi & Hr).
    exists i, ps. split; [lia | exact Hr]. }
  destruct (Nat.max_spec n m) as [[Hlt ->]|[Hle ->]].
  - destruct (frozen_by layers n p) eqn:En; [|reflexivity].
    apply (Hmono n m); [lia | exact En].
  - destruct (frozen_by layers m p) eqn:Em; [|now rewrite orb_false_r].
    rewrite (Hmono m n Hle Em). reflexivity.
Qed.

(** X11.  Freezing adds up: running the freezing step for [N] layers and
    then for [M] layers leaves every parameter with the flag it has after
    one run for the larger of the two counts.  In particular a second run
    with the same count changes no flag. *)
Theorem freeze_encoder_cumulative (N M : Z) layers (s : state) (p : param) :
  N <= Z.of_nat (List.length layers) ->
  M <= Z.of_nat (List.length layers) ->
  requires_grad
    (fst (freeze_encoder M layers (fst (freeze_encoder N layers s)))) p =
  requires_grad (fst (freeze_encoder (Z.max N M) layers s)) p.
Proof.
  intros HN HM.
  rewrite !freeze_encoder_flags by lia.
  rewrite Z2Nat.inj_max, frozen_by_max.
  destruct (frozen_by layers (Z.to_nat N) p),
           (frozen_by layers (Z.to_nat M) p); reflexivity.
Qed.

Lemma freeze_encoder_cumulative_witness :
  requires_grad
    (fst (freeze_encoder 1 (encoder_layers demo_model)
            (fst (freeze_encoder 2 (encoder_layers demo_model) initial))))
    3%nat =
  requires_grad
    (fst (freeze_encoder (Z.max 2 1) (encoder_layers demo_model) initial))
    3%nat.
Proof.
  apply freeze_encoder_cumulative; simpl; lia.
Defined.

(** Past the last layer the loop stops where it stands: the state it
    raises in is the state after the layers the model has. *)
Lemma freeze_loop_stops_at_end layers (n a : nat) (s : state) :
  (a <= List.length layers < a + n)%nat ->
  fst (for_each (map Z.of_nat (seq a n)) (freeze_layer layers) s) =
  fst (for_each (map Z.of_nat (seq a (List.length layers - a)))
         (freeze_layer layers) s).
Proof.
  revert a s. induction n as [|n IH]; intros a s Hlen; [lia|].
  cbn [seq map]. rewrite for_each_cons.
  destruct (nth_error layers a) as [ps|] eqn:E.
  - assert (Ha : (a < List.length layers)%nat)
      by (apply nth_error_Some; congruence).
    replace (List.length layers - a)%nat
      with (S (List.length layers - S a)) by lia.
    cbn [seq map]. rewrite for_each_cons.
    rewrite (freeze_layer_present _ _ _ _ E).
    destruct (freeze_params_spec ps s) as (Hr & _).
    destruct (for_each ps _ s) as [s1 r1]. cbn in Hr. subst r1.
    apply IH. lia.
  - rewrite (freeze_layer_absent _ _ _ E).
    apply nth_error_None in E.
    replace (List.length layers - a)%nat with 0%nat by lia. reflexivity.
Qed.

(** X12.  A freeze count above the number of layers is not checked before
    the loop starts: when [IndexError] comes, the line "Freezing the first N
    encoder layers." has been printed and every parameter of every encoder
    layer has been made non-trainable; the other parameters have the flag
    they had. *)
Theorem freeze_beyond_layers_state (N : Z) layers (s : state) :
  N > Z.of_nat (List.length layers) ->
  let s' := fst (freeze_encoder N layers s) in
  trace s' = trace s ++
    [Print ("Freezing the first " +++ str N +++ " encoder layers.")] /\
  forall p, requires_grad s' p =
            if frozen_by layers (List.length layers) p then false
            else requires_grad s p.
Proof.
  intros H. cbv zeta. rewrite freeze_encoder_pos by lia.
  set (s0 := {| trace := _; requires_grad := requires_grad s |}).
  unfold range.
  rewrite (freeze_loop_stops_at_end layers (Z.to_nat N) 0 s0) by lia.
  rewrite Nat.sub_0_r.
  destruct (freeze_loop_monotone layers (List.length layers) 0 s0) as (Ht & _).
  destruct (freeze_loop_in_range layers (List.length layers) 0 s0 ltac:(lia))
    as (_ & Hin & Hout).
  split; [exact Ht|]. intros p.
  destruct (frozen_by layers (List.length layers) p) eqn:E.
  - apply Hin. now apply frozen_by_in_layers.
  - rewrite Hout; [reflexivity|].
    rewrite <- frozen_by_in_layers. congruence.
Qed.

Lemma freeze_beyond_layers_state_witness :
  let s' := fst (freeze_encoder 30 (encoder_layers demo_model) initial) in
  trace s' = [Print "Freezing the first 30 encoder layers."] /\
  forall p, requires_grad s' p =
            if frozen_by (encoder_layers demo_model) 3 p then false else true.
Proof.
  apply (freeze_beyond_layers_state 30 (encoder_layers demo_model) initial).
  simpl. lia.
Defined.

(** ** The script *)

(** X13.  The size "tiny" can never be trained, whatever the environment:
    the run stops with an exception before any call of [trainer.train], and
    if it gets through the set-up at all it stops with the
    [AttributeError] of the missing configuration. *)
Theorem tiny_never_trains (w : World) (freeze : option Z) :
  snd (main w "tiny" freeze initial) <> Ok tt /\
  train_call (trace (fst (main w "tiny" freeze initial))) = None /\
  (forall s1 am, setup w "tiny" freeze initial = (s1, Ok am) ->
                 main w "tiny" freeze initial = (s1, Raise AttributeError)).
Proof.
  assert (Hs : forall s1 am, setup w "tiny" freeze initial = (s1, Ok am) ->
                 main w "tiny" freeze initial = (s1, Raise AttributeError)).
  { intros s1 am E.
    pose proof (setup_returns_args w "tiny" freeze initial s1 am E) as Ha.
    cbv beta in Ha. destruct (parse_args_ok _ _ _ Ha) as [_ Hm].
    unfold main, mbind. rewrite E.
    unfold resume_and_train, mbind, lift. rewrite Hm. reflexivity. }
  split; [|split; [|exact Hs]].
  - unfold main, mbind in *.
    destruct (setup w "tiny" freeze initial) as [s1 [am|e]] eqn:E.
    + specialize (Hs s1 am eq_refl). rewrite Hs. discriminate.
    + discriminate.
  - destruct (train_call _) as [r|] eqn:E; [|reflexivity].
    destruct (main_train_call w "tiny" freeze r E) as (args & dir & Ha & Hd & _).
    destruct (parse_args_ok _ _ _ Ha) as [_ Hm].
    rewrite Hm in Hd. discriminate Hd.
Qed.

Lemma tiny_never_trains_witness :
  main demo_world "tiny" (Some 2) initial =
  (fst (setup demo_world "tiny" (Some 2) initial), Raise AttributeError).
Proof.
  destruct (tiny_never_trains demo_world (Some 2)) as (_ & _ & H).
  apply (H _ ({| model_size := "tiny"; freeze_layers := 2 |},
              "openai/whisper-tiny")).
  reflexivity.
Defined.

(** What [setup] does once the dataset and the model are at hand: it is in
    the state [loaded] when it comes to the freezing step, stops if that
    step raises, and else goes on to the data collator. *)
Lemma setup_through_freezing (w : World) size k m id splits :
  In size choices ->
  dict_get model_map size = Ok id ->
  datasets w ("../../data_processed/dataset_dict_" +++ size) = Some splits ->
  In "train" splits -> In "eval" splits -> In "test" splits ->
  hub w id = Some m ->
  let device := if cuda_is_available w then "cuda:0" else "cpu" in
  let loaded :=
    {| trace := [Print ("Using device: " +++ device);
                 LoadFromDisk ("../../data_processed/dataset_dict_" +++ size);
                 Print "Data set loaded.";
                 ModelFromPretrained id;
                 ModelTo device];
       requires_grad := loaded_requires_grad m |} in
  setup w size (Some k) initial =
  match freeze_encoder k (encoder_layers m) loaded with
  | (s2, Ok _) =>
      ({| trace := trace s2 ++
            [SetGenerationConfig;
             Print ("Model " +++ id +++ " set up finished.");
             ProcessorFromPretrained id;
             MakeDataCollator;
             Print "Data collator finished."];
          requires_grad := requires_grad s2 |},
       Ok ({| model_size := size; freeze_layers := k |}, id))
  | (s2, Raise e) => (s2, Raise e)
  end.
Proof.
  intros Hsize Hid Hds Htr Hev Hte Hhub. cbv zeta.
  unfold setup, parse_args. rewrite (existsb_eqb_In_str _ _ Hsize).
  unfold mbind at 1. unfold lift at 1. cbn [model_size freeze_layers].
  rewrite Hid. unfold mbind at 1. unfold lift at 1.
  unfold load_from_disk, get_split, from_pretrained. rewrite Hds.
  unfold mbind, print, emit, ret, lift. cbv beta iota.
  rewrite !existsb_eqb_In_str by assumption. cbv beta iota.
  rewrite Hhub. cbv beta iota.
  cbn [fst snd trace requires_grad encoder_layers initial app].
  destruct (freeze_encoder k (encoder_layers m) _) as [s2 [[]|e2]];
    cbn [fst snd trace requires_grad]; [|reflexivity].
  rewrite <- !app_assoc. reflexivity.
Qed.




Lemma resume_and_train_keeps_flags (w : World) args id (s : state) :
  requires_grad (fst (resume_and_train w args id s)) = requires_grad s.
Proof.
  unfold resume_and_train, mbind, lift.
  destruct (get_output_dir _) as [dir|e]; [|reflexivity].
  destruct (get_latest_checkpoint (listdir w) dir) as [c|e]; [|reflexivity].
  destruct (truthy c); reflexivity.
Qed.

(** X15.  What the trainer gets to train.  In a run with the dataset and the
    model at hand and a freeze count the model has the layers for, the
    flags at the end of the modelled script, when [trainer.train] is called,
    are: non-trainable for the parameters of the first [k] encoder layers,
    and for every other parameter the flag the model was loaded with. *)
Theorem flags_at_training (w : World) size k m id splits (p : param) :
  In size choices ->
  dict_get model_map size = Ok id ->
  datasets w ("../../data_processed/dataset_dict_" +++ size) = Some splits ->
  In "train" splits -> In "eval" splits -> In "test" splits ->
  hub w id = Some m ->
  k <= Z.of_nat (List.length (encoder_layers m)) ->
  requires_grad (fst (main w size (Some k) initial)) p =
  if frozen_by (encoder_layers m) (Z.to_nat k) p then false
  else loaded_requires_grad m p.
Proof.
  intros Hsize Hid Hds Htr Hev Hte Hhub Hk.
  pose proof (setup_through_freezing w size k m id splits
                Hsize Hid Hds Htr Hev Hte Hhub) as Hs.
  cbv zeta in Hs.
  match type of Hs with
  | _ = match freeze_encoder k ?l ?s with _ => _ end =>
      pose proof (freeze_encoder_ok k l s Hk) as Hok;
      pose proof (freeze_encoder_flags k l s p Hk) as Hf;
      destruct (freeze_encoder k l s) as [s2 r2]
  end.
  cbn [fst snd requires_grad] in Hok, Hf. subst r2.
  unfold main, mbind. rewrite Hs. cbn [fst snd].
  rewrite resume_and_train_keeps_flags. exact Hf.
Qed.

Lemma flags_at_training_witness :
  requires_grad (fst (main demo_world "large" (Some 2) initial)) 3%nat =
  if frozen_by (encoder_layers demo_model) (Z.to_nat 2) 3%nat then false
  else loaded_requires_grad demo_model 3%nat.
Proof.
  apply (flags_at_training demo_world "large" 2 demo_model
           "openai/whisper-large-v3" ["train"; "eval"; "test"]);
    try reflexivity; simpl; auto; lia.
Defined.

Section Silent.

Variable P : event -> bool.

Lemma silent_ret {A} (a : A) : silent P (ret a).
Proof. intros s. reflexivity. Qed.

Lemma silent_lift {A} (r : result A) : silent P (lift r).
Proof. intros s. reflexivity. Qed.

Lemma silent_emit (e : event) : P e = false -> silent P (emit e).
Proof.
  intros H s. cbn. rewrite filter_app. cbn. rewrite H. apply app_nil_r.
Qed.

Lemma silent_set_requires_grad (p : param) (b : bool) :
  silent P (set_requires_grad p b).
Proof. intros s. reflexivity. Qed.

Lemma silent_bind {A B} (m : M A) (k : A -> M B) :
  silent P m -> (forall a, silent P (k a)) -> silent P (mbind m k).
Proof.
  intros Hm Hk s. unfold mbind. specialize (Hm s).
  destruct (m s) as [s1 [a|e]]; cbn in *.
  - now rewrite Hk.
  - exact Hm.
Qed.

Lemma silent_for_each {A} (l : list A) (body : A -> M unit) :
  (forall x, silent P (body x)) -> silent P (for_each l body).
Proof.
  intros Hb. induction l as [|x l IH]; cbn.
  - apply silent_ret.
  - apply silent_bind; auto.
Qed.

End Silent.

Ltac silent_steps :=
  repeat (first
    [ apply silent_bind; [|intros ?]
    | apply silent_ret | apply silent_lift
    | apply silent_set_requires_grad
    | apply silent_for_each; intros ?
    | apply silent_emit; reflexivity
    | match goal with
      | |- silent _ (if ?b then _ else _) => destruct b
      | |- silent _ (match ?x with _ => _ end) => destruct x
      | |- silent _ (fun _ => _) => intros ?; reflexivity
      end ]).

Lemma silent_setup_choice (w : World) size freeze :
  silent is_choice_line (setup w size freeze).
Proof.
  unfold setup, load_from_disk, get_split, from_pretrained,
    freeze_encoder, freeze_layer, print.
  silent_steps.
Qed.

Lemma silent_setup_writes (w : World) size freeze :
  silent writes_output_dir (setup w size freeze).
Proof.
  unfold setup, load_from_disk, get_split, from_pretrained,
    freeze_encoder, freeze_layer, print.
  silent_steps.
Qed.

(** How a run ends: it stops where [setup], the lookup of the output
    directory or the scan stops, having added nothing to what [setup] left,
    or it goes through the last six steps of the script. *)
Lemma main_cases (w : World) size freeze :
  let s1 := fst (setup w size freeze initial) in
  (exists e, main w size freeze initial = (s1, Raise e)) \/
  (exists args id dir r,
     parse_args size freeze = Ok args /\
     get_output_dir
       (get_training_args (model_size args) (freeze_layers args)) = Ok dir /\
     get_latest_checkpoint (listdir w) dir = Ok r /\
     main w size freeze initial =
     ({| trace := trace s1 ++
           [Print (if truthy r
                   then "Resuming from checkpoint: " +++
                        match r with Some c => c | None => "None" end
                   else "No checkpoint found. Starting fresh training.");
            MakeTrainer dir;
            ProcessorSavePretrained dir;
            EmptyCache;
            Print ("Starting training for " +++ id +++ "...");
            Train r];
         requires_grad := requires_grad s1 |}, Ok tt)).
Proof.
  cbv zeta. unfold main, mbind.
  pose proof (setup_returns_args w size freeze initial) as Hr.
  destruct (setup w size freeze initial) as [s1 [[args id]|e]]; cbn [fst snd].
  2:{ left. eauto. }
  specialize (Hr s1 (args, id) eq_refl). cbv beta in Hr. cbn [fst] in Hr.
  unfold resume_and_train, mbind, lift.
  destruct (get_output_dir _) as [dir|e] eqn:Hdir; [|left; eauto].
  destruct (get_latest_checkpoint (listdir w) dir) as [r|e] eqn:Hget;
    [|left; eauto].
  right. exists args, id, dir, r. repeat split; auto.
  destruct (truthy r); unfold print, emit; cbn [fst snd trace requires_grad];
    rewrite <- !app_assoc; reflexivity.
Qed.

Lemma setup_no_choice_line (w : World) size freeze :
  filter is_choice_line (trace (fst (setup w size freeze initial))) = [].
Proof. exact (silent_setup_choice w size freeze initial). Qed.

Lemma setup_no_write (w : World) size freeze :
  filter writes_output_dir (trace (fst (setup w size freeze initial))) = [].
Proof. exact (silent_setup_writes w size freeze initial). Qed.

Lemma prefix_append (a b : string) : String.prefix a (a +++ b) = true.
Proof.
  induction a as [|c a IH]; cbn.
  - now destruct b.
  - destruct (ascii_dec c c); [exact IH | congruence].
Qed.

Lemma setup_no_train (w : World) size freeze :
  train_call (trace (fst (setup w size freeze initial))) = None.
Proof. exact (quiet_setup w size freeze initial). Qed.

(** X16.  A run that calls [trainer.train] prints exactly one line about its
    choice, and the line tells the truth: "Resuming from checkpoint: " and
    the path when the call gets a path, "No checkpoint found. Starting
    fresh training." when it gets [None]. *)
Theorem choice_line_agrees
        (w : World) (size : string) (freeze : option Z) (r : option string) :
  train_call (trace (fst (main w size freeze initial))) = Some r ->
  filter is_choice_line (trace (fst (main w size freeze initial))) =
  [Print match r with
         | Some path => "Resuming from checkpoint: " +++ path
         | None => "No checkpoint found. Starting fresh training."
         end].
Proof.
  intros H.
  pose proof (setup_no_train w size freeze) as Hq.
  destruct (main_cases w size freeze)
    as [[e E]|(args & id & dir & r' & _ & _ & Hget & E)];
    rewrite E in *; cbn [fst trace] in *.
  - rewrite Hq in H. discriminate H.
  - rewrite train_call_app, Hq in H. cbn in H. injection H as ->.
    rewrite filter_app, setup_no_choice_line. cbn [app].
    destruct (get_latest_checkpoint_ok _ _ _ Hget)
      as [[-> _]|(entries & c & _ & Hin & ->)].
    + reflexivity.
    + apply checkpoints_In in Hin. destruct Hin as [_ Hs].
      rewrite (path_join_truthy dir c Hs).
      cbn [filter].
      replace (is_choice_line
                 (Print ("Resuming from checkpoint: " +++ path_join dir c)))
        with true
        by (symmetry; unfold is_choice_line, startswith;
            rewrite prefix_append; apply orb_true_r).
      replace (is_choice_line (Print ("Starting training for " +++ id +++ "...")))
        with false by reflexivity.
      reflexivity.
Qed.

Lemma choice_line_agrees_witness :
  filter is_choice_line (trace (fst (main demo_world "small" None initial))) =
  [Print "Resuming from checkpoint: ../../trained_models/whisper-small-vanilla/checkpoint-1500"].
Proof.
  apply (choice_line_agrees demo_world "small" None
           (Some "../../trained_models/whisper-small-vanilla/checkpoint-1500")).
  reflexivity.
Defined.

(** X17.  The output directory is handed on only after it has been scanned:
    whenever a run builds the trainer, calls [processor.save_pretrained] or
    calls [trainer.train], the scan of that very directory has returned
    before.  A run in which the scan raises has done none of the three. *)
Theorem writes_only_after_scan
        (w : World) (size : string) (freeze : option Z) (e : event) :
  In e (trace (fst (main w size freeze initial))) ->
  writes_output_dir e = true ->
  exists args dir r,
    parse_args size freeze = Ok args /\
    get_output_dir
      (get_training_args (model_size args) (freeze_layers args)) = Ok dir /\
    get_latest_checkpoint (listdir w) dir = Ok r /\
    (e = MakeTrainer dir \/ e = ProcessorSavePretrained dir \/ e = Train r).
Proof.
  intros Hin He.
  assert (Hno : ~ In e (trace (fst (setup w size freeze initial)))).
  { intros H.
    assert (X : In e (filter writes_output_dir
                        (trace (fst (setup w size freeze initial)))))
      by (apply filter_In; auto).
    now rewrite setup_no_write in X. }
  destruct (main_cases w size freeze)
    as [[ex E]|(args & id & dir & r & Ha & Hd & Hget & E)];
    rewrite E in Hin; cbn [fst trace] in Hin.
  - contradiction.
  - exists args, dir, r. repeat split; auto.
    apply in_app_or in Hin. destruct Hin as [Hin|Hin]; [contradiction|].
    cbn in Hin.
    destruct Hin as [<-|[<-|[<-|[<-|[<-|[<-|[]]]]]]]; auto; discriminate He.
Qed.

Lemma writes_only_after_scan_witness :
  exists args dir r,
    parse_args "small" None = Ok args /\
    get_output_dir
      (get_training_args (model_size args) (freeze_layers args)) = Ok dir /\
    get_latest_checkpoint (listdir demo_world) dir = Ok r /\
    (ProcessorSavePretrained "../../trained_models/whisper-small-vanilla" =
       MakeTrainer dir \/
     ProcessorSavePretrained "../../trained_models/whisper-small-vanilla" =
       ProcessorSavePretrained dir \/
     ProcessorSavePretrained "../../trained_models/whisper-small-vanilla" =
       Train r).
Proof.
  apply (writes_only_after_scan demo_world "small" None
           (ProcessorSavePretrained "../../trained_models/whisper-small-vanilla")).
  - cbv. auto 20.
  - reflexivity.
Defined.

(** ** Round trip with the names the trainer writes *)

(** X18.  The name the trainer gives the checkpoint of a step, "checkpoint-"
    and the step in decimal, is a candidate of the scan and is read back as
    that step.  So in a directory whose candidates all carry such names the
    scan returns the checkpoint of the latest step, whatever else the
    directory holds and in whatever order it is listed. *)
Theorem latest_step_wins
        (ld : string -> option (list string)) (dir : string)
        (entries : list string) (latest : Z) :
  ld dir = Some entries ->
  (forall e, In e entries -> startswith e "checkpoint" = true ->
             exists n, 0 <= n /\ e = "checkpoint-" +++ str n) ->
  0 <= latest ->
  In ("checkpoint-" +++ str latest) entries ->
  (forall n, 0 <= n -> In ("checkpoint-" +++ str n) entries -> n <= latest) ->
  sort_key ("checkpoint-" +++ str latest) = Ok latest /\
  get_latest_checkpoint ld dir =
  Ok (Some (path_join dir ("checkpoint-" +++ str latest))).
Proof.
  intros Hl Hnames H0 Hin Hmax.
  pose proof (checkpoint_name_well_formed latest H0) as Hwf.
  split; [exact (sort_key_well_formed _ _ Hwf)|].
  assert (Hc : In ("checkpoint-" +++ str latest) (checkpoints entries)).
  { apply checkpoints_In. split; [exact Hin|].
    exact (well_formed_startswith _ _ Hwf). }
  assert (Hne : checkpoints entries <> []).
  { intros E. now rewrite E in Hc. }
  assert (Hkeys : forall x, In x (checkpoints entries) ->
                            exists k, sort_key x = Ok k).
  { intros x Hx. apply checkpoints_In in Hx. destruct Hx as [Hx Hs].
    destruct (Hnames x Hx Hs) as (n & Hn & ->). exists n.
    apply sort_key_well_formed. now apply checkpoint_name_well_formed. }
  destruct (get_latest_checkpoint_first_max ld dir entries Hl Hne Hkeys)
    as (e & pre & post & Hget & Hd & Hpre & Hpost).
  pose proof (first_maximum_is_maximum
                (fun x => key_value (sort_key x)) _ _ _ _ Hd Hpre Hpost
                _ Hc) as Hle.
  assert (He : In e (checkpoints entries))
    by (rewrite Hd; apply in_or_app; right; now left).
  apply checkpoints_In in He. destruct He as [He Hs].
  destruct (Hnames e He Hs) as (n & Hn & ->).
  cbn beta in Hle.
  rewrite (sort_key_well_formed _ _ Hwf) in Hle.
  rewrite (sort_key_well_formed _ _ (checkpoint_name_well_formed n Hn)) in Hle.
  cbn [key_value] in Hle.
  assert (n = latest) by (specialize (Hmax n Hn He); lia).
  subst n. exact Hget.
Qed.

Lemma latest_step_wins_witness :
  sort_key ("checkpoint-" +++ str 1500) = Ok 1500 /\
  get_latest_checkpoint (listdir demo_world)
    "../../trained_models/whisper-small-vanilla" =
  Ok (Some (path_join "../../trained_models/whisper-small-vanilla"
              ("checkpoint-" +++ str 1500))).
Proof.
  apply (latest_step_wins (listdir demo_world) _ demo_listing 1500).
  - reflexivity.
  - intros e Hin Hs. simpl in Hin.
    destruct Hin as [<-|[<-|[<-|[<-|[]]]]].
    + exists 500. split; [lia | reflexivity].
    + cbv in Hs. discriminate Hs.
    + exists 1500. split; [lia | reflexivity].
    + exists 200. split; [lia | reflexivity].
  - lia.
  - right. right. now left.
  - intros n Hn Hin. simpl in Hin.
    destruct Hin as [E|[E|[E|[E|[]]]]].
    + apply (append_cancel_l "checkpoint-" "500" (str n)) in E.
      apply (str_injective 500 n) in E; lia.
    + discriminate E.
    + apply (append_cancel_l "checkpoint-" "1500" (str n)) in E.
      apply (str_injective 1500 n) in E; lia.
    + apply (append_cancel_l "checkpoint-" "200" (str n)) in E.
      apply (str_injective 200 n) in E; lia.
Defined.

(** ** Negative freeze counts *)

(** What follows a monadic step adds nothing [P] picks, when the rest is
    silent. *)
Lemma bind_keeps (P : event -> bool) {A B} (m : M A) (k : A -> M B)
      (s : state) :
  (forall a, silent P (k a)) ->
  filter P (trace (fst (mbind m k s))) = filter P (trace (fst (m s))).
Proof.
  intros H. unfold mbind. destruct (m s) as [s1 [a|e]]; cbn [fst].
  - apply H.
  - reflexivity.
Qed.

Lemma mbind_lift_ok {A B} (a : A) (k : A -> M B) (s : state) :
  mbind (lift (Ok a)) k s = k a s.
Proof. reflexivity. Qed.

Lemma mbind_emit {B} (e : event) (k : unit -> M B) (s : state) :
  mbind (emit e) k s =
  k tt {| trace := trace s ++ [e]; requires_grad := requires_grad s |}.
Proof. reflexivity. Qed.

(** Every run whose size the parser takes calls [load_from_disk], once, on
    the dataset of that size; the freeze count plays no part in it. *)
Lemma setup_loads_dataset (w : World) size freeze :
  In size choices ->
  filter is_dataset_load (trace (fst (setup w size freeze initial))) =
  [LoadFromDisk ("../../data_processed/dataset_dict_" +++ size)].
Proof.
  intros Hsize. unfold setup. cbv zeta.
  unfold parse_args. rewrite (existsb_eqb_In_str _ _ Hsize).
  rewrite mbind_lift_ok. cbn [model_size freeze_layers].
  assert (Hid : exists id, dict_get model_map size = Ok id).
  { simpl in Hsize. destruct Hsize as [<-|[<-|[<-|[<-|[]]]]]; eexists;
      reflexivity. }
  destruct Hid as [id ->]. rewrite mbind_lift_ok.
  unfold print at 1. rewrite mbind_emit.
  rewrite bind_keeps.
  - unfold load_from_disk, mbind, emit.
    destruct (datasets w _); reflexivity.
  - intros dataset_dict.
    unfold get_split, from_pretrained, freeze_encoder, freeze_layer, print.
    silent_steps.
Qed.

Lemma main_loads_dataset (w : World) size freeze :
  In size choices ->
  filter is_dataset_load (trace (fst (main w size freeze initial))) =
  [LoadFromDisk ("../../data_processed/dataset_dict_" +++ size)].
Proof.
  intros Hsize.
  destruct (main_cases w size freeze)
    as [[e E]|(args & id & dir & r & _ & _ & _ & E)];
    rewrite E; cbn [fst trace].
  - now apply setup_loads_dataset.
  - rewrite filter_app, setup_loads_dataset by exact Hsize. reflexivity.
Qed.

(** C2, as the script has it.  A negative freeze count is no input error.
    The parser takes it; every run with it calls [load_from_disk]; the
    freezing step treats it like 0, printing "No encoder layers are frozen."
    and changing no flag.  With the dataset and the model at hand the run
    loads both and comes past the freezing step with that line printed, and
    to its end every parameter has the flag the model was loaded with. *)
Theorem negative_freeze_is_no_freeze
        (w : World) (size : string) (k : Z) layers (s : state) :
  In size choices -> k < 0 ->
  parse_args size (Some k) = Ok {| model_size := size; freeze_layers := k |} /\
  freeze_encoder k layers s =
    ({| trace := trace s ++ [Print "No encoder layers are frozen."];
        requires_grad := requires_grad s |}, Ok tt) /\
  filter is_dataset_load (trace (fst (main w size (Some k) initial))) =
    [LoadFromDisk ("../../data_processed/dataset_dict_" +++ size)] /\
  (forall m id splits,
     dict_get model_map size = Ok id ->
     datasets w ("../../data_processed/dataset_dict_" +++ size) = Some splits ->
     In "train" splits -> In "eval" splits -> In "test" splits ->
     hub w id = Some m ->
     let device := if cuda_is_available w then "cuda:0" else "cpu" in
     (exists t,
        trace (fst (main w size (Some k) initial)) =
        [Print ("Using device: " +++ device);
         LoadFromDisk ("../../data_processed/dataset_dict_" +++ size);
         Print "Data set loaded.";
         ModelFromPretrained id;
         ModelTo device;
         Print "No encoder layers are frozen."] ++ t) /\
     (forall p, requires_grad (fst (main w size (Some k) initial)) p =
                loaded_requires_grad m p)).
Proof.
  intros Hs Hk. split; [|split; [|split]].
  - unfold parse_args. now rewrite (existsb_eqb_In_str _ _ Hs).
  - apply freeze_encoder_nonpos. lia.
  - now apply main_loads_dataset.
  - intros m id splits Hid Hds Htr Hev Hte Hhub. cbv zeta.
    pose proof (setup_through_freezing w size k m id splits
                  Hs Hid Hds Htr Hev Hte Hhub) as Hsetup.
    cbv zeta in Hsetup. rewrite freeze_encoder_nonpos in Hsetup by lia.
    cbn [trace requires_grad app] in Hsetup.
    destruct (main_cases w size (Some k))
      as [[e E]|(args & id' & dir & r & _ & _ & _ & E)];
      rewrite E, Hsetup; cbn [fst trace requires_grad]; split;
      try (intros p; reflexivity).
    + eexists. reflexivity.
    + eexists. cbn [app]. reflexivity.
Qed.

Lemma negative_freeze_is_no_freeze_witness :
  parse_args "small" (Some (-1)) =
    Ok {| model_size := "small"; freeze_layers := -1 |} /\
  freeze_encoder (-1) (encoder_layers demo_model) initial =
    ({| trace := [Print "No encoder layers are frozen."];
        requires_grad := requires_grad initial |}, Ok tt) /\
  filter is_dataset_load
    (trace (fst (main demo_world "small" (Some (-1)) initial))) =
    [LoadFromDisk "../../data_processed/dataset_dict_small"] /\
  (exists t,
     trace (fst (main demo_world "small" (Some (-1)) initial)) =
     [Print "Using device: cpu";
      LoadFromDisk "../../data_processed/dataset_dict_small";
      Print "Data set loaded.";
      ModelFromPretrained "openai/whisper-small";
      ModelTo "cpu";
      Print "No encoder layers are frozen."] ++ t) /\
  (forall p, requires_grad
               (fst (main demo_world "small" (Some (-1)) initial)) p =
             loaded_requires_grad demo_model p).
Proof.
  destruct (negative_freeze_is_no_freeze demo_world "small" (-1)
              (encoder_layers demo_model) initial)
    as (Hp & Hf & Hl & Hrun); [simpl; auto | lia |].
  repeat split; try assumption;
    apply (Hrun demo_model "openai/whisper-small" ["train"; "eval"; "test"]);
    try reflexivity; simpl; auto.
Defined.
